(** * tscat_gui: the TSCatGUI widget of [tscat_gui/__init__.py]

    A shallow embedding of the selection synchronisation, the command
    enablement, the external signals, the undo/redo history menus and the
    three public mutators of [TSCatGUI], together with the properties the
    specification states about them.

    Python objects are records, attribute assignment is a record update,
    and a method is a computation in a small state-and-exception monad
    over the widget.  Qt signal delivery is synchronous: a connected slot
    is a computation that runs inside the emitting operation. *)

From Stdlib Require Import ZArith Ascii String List Bool Lia DecimalString
  Sorted.
From stdpp Require Import gmap strings list.

Open Scope string_scope.
Open Scope list_scope.
Open Scope Z_scope.

(** ** Entities of the external store (package [tscat]) *)

Abbreviation UUID := string (only parsing).

(** [tscat._Catalogue] and [tscat._Event], the two values the [type]
    argument of a notification takes. *)
Inductive Kind := Catalogue | Event.

#[global] Instance Kind_eq_dec : EqDecision Kind.
Proof. solve_decision. Defined.

(** The attributes of an entity that this file reads or writes:
    its class, [is_removed()], [start] and [stop], and for a catalogue
    the events added to it. *)
Record Entity := mkEntity {
  entity_type : Kind;
  is_removed : bool;
  start : Z;
  stop : Z;
  author : string;
  members : list UUID
}.

(** [entity.remove()] *)
Definition remove (x : Entity) : Entity :=
  {| entity_type := entity_type x; is_removed := true;
     start := start x; stop := stop x; author := author x;
     members := members x |}.

(** [tscat.add_events_to_catalogue(catalogue, event)] *)
Definition add_member (u : UUID) (x : Entity) : Entity :=
  {| entity_type := entity_type x; is_removed := is_removed x;
     start := start x; stop := stop x; author := author x;
     members := members x ++ [u] |}.

(** ** Qt values *)

(** A [QModelIndex]: invalid, or a row of a model. *)
Inductive QModelIndex := InvalidIndex | Row (r : nat).

#[global] Instance QModelIndex_eq_dec : EqDecision QModelIndex.
Proof. solve_decision. Defined.

Definition isValid (i : QModelIndex) : bool :=
  match i with InvalidIndex => false | Row _ => true end.

(** The lambda connected to [triggered] in the history menus,
    [lambda state, _i=i, inc=index_inc: ...setIndex(_i + inc)]: Python
    evaluates default arguments when the lambda is created, so the object
    holds the two values. *)
Record Lambda := mkLambda { _i : Z; inc : Z }.

(** A [QAction] of a history menu. *)
Record QAction := mkQAction {
  text : string;
  isEnabled : bool;
  triggered : option Lambda
}.

(** The [QUndoStack] owned by [AppState]: the text of each command, the
    index (number of commands applied) and the clean index. *)
Record QUndoStack := mkQUndoStack {
  commands : list string;
  index : Z;
  cleanIndex : Z
}.

Definition count (s : QUndoStack) : Z := Z.of_nat (length (commands s)).

(** [QUndoStack.command(i)]: the command at [i], [None] out of range. *)
Definition command (s : QUndoStack) (i : Z) : option string :=
  if (0 <=? i) && (i <? count s) then nth_error (commands s) (Z.to_nat i)
  else None.

(** Python's [range(start, stop, step)] as the list it iterates over. *)
Definition range_length (start stop step : Z) : Z :=
  if 0 <? step then Z.max 0 ((stop - start + step - 1) / step)
  else if step <? 0 then Z.max 0 ((start - stop - step - 1) / (- step))
  else 0.

Definition py_range (start stop step : Z) : list Z :=
  map (fun k => start + Z.of_nat k * step)
      (seq 0 (Z.to_nat (range_length start stop step))).

(** [f'{n}'] for an integer. *)
Definition py_str (n : Z) : string := NilZero.string_of_int (Z.to_int n).

(** The two tool buttons that carry a history menu. *)
Inductive ToolButton := undo_button | redo_button.

(** The four signals [TSCatGUI] declares (lines 41-44). *)
Inductive Signal :=
  events_selected | catalogues_selected | events_changed | catalogues_changed.

#[global] Instance Signal_eq_dec : EqDecision Signal.
Proof. solve_decision. Defined.

(** Python exceptions that the modelled code can raise. *)
Inductive PyExn :=
| AttributeError (name : string)
| AssertionError
| EntityNotFound (uuid : UUID)
| ValueError.

(** What the widget does to its collaborators, in order. *)
Inductive Op :=
| ModelReset (k : Kind)                       (* model.reset() *)
| ClearSelection (k : Kind)                   (* view.clearSelection() *)
| Select (k : Kind) (i : QModelIndex)         (* selectionModel().select(i, ...) *)
| Notify (action : string) (k : Kind) (uuids : list UUID)  (* state.updated(...) *)
| Emit (s : Signal) (uuids : list UUID)       (* signal.emit(uuids) *)
| SetIndex (i : Z)                            (* undo_stack().setIndex(i) *)
| SlotError (e : PyExn).                      (* exception that left a slot *)

(** ** Collaborators whose code is outside this file

    [EventModel] ([model.py]), [tscat_root()] ([tscat_driver]) and Qt's
    [QSortFilterProxyModel] are used through a handful of methods; they
    are taken as an interface. *)
Class Collaborators := {
  Model : Type;
  Proxy : Type;
  EventModel : Model;                       (* EventModel(self.state, self) *)
  tscat_root : Model;                       (* tscat_model.tscat_root() *)
  QSortFilterProxyModel : Proxy;            (* QSortFilterProxyModel() *)
  reset : Kind -> gmap string Entity -> Model -> Model;
  index_from_uuid : Kind -> Model -> UUID -> QModelIndex;
  mapFromSource : Proxy -> Model -> QModelIndex -> QModelIndex;
  UUIDRole : Kind -> Model -> QModelIndex -> UUID   (* index.data(UUIDRole) *)
}.

(** How a call ends: with a value, or with an exception. *)
Inductive Res (A : Type) := Ok (a : A) | Raise (e : PyExn).
Arguments Ok {A} a.
Arguments Raise {A} e.

(** ** Assignments and constructions that tscat checks

    [event.start = v] and [event.stop = v] go through
    [tscat._Event.__setattr__], which refuses a start after the event's
    stop and a stop before the event's start with [ValueError] and then
    leaves the event as it was; the two may be equal. The check is the
    event class's: to a catalogue the two names are plain attributes. *)
Definition set_start (v : Z) (x : Entity) : Res Entity :=
  match entity_type x with
  | Event =>
      if stop x <? v then Raise ValueError
      else Ok {| entity_type := Event; is_removed := is_removed x;
                 start := v; stop := stop x; author := author x;
                 members := members x |}
  | Catalogue =>
      Ok {| entity_type := Catalogue; is_removed := is_removed x;
            start := v; stop := stop x; author := author x;
            members := members x |}
  end.

Definition set_stop (v : Z) (x : Entity) : Res Entity :=
  match entity_type x with
  | Event =>
      if v <? start x then Raise ValueError
      else Ok {| entity_type := Event; is_removed := is_removed x;
                 start := start x; stop := v; author := author x;
                 members := members x |}
  | Catalogue =>
      Ok {| entity_type := Catalogue; is_removed := is_removed x;
            start := start x; stop := v; author := author x;
            members := members x |}
  end.

(** [s.create_event(start, stop, author)] of a [tscat.Session]: the
    constructor of [tscat._Event] assigns the start and then the stop, so
    a stop before the start is refused with [ValueError] and no event is
    made. *)
Definition session_create_event (start stop : Z) (author : string)
  : Res Entity :=
  if stop <? start then Raise ValueError
  else Ok (mkEntity Event false start stop author []).

Section Widget.
Context `{Collaborators}.

(** ** The widget *)

Record TSCatGUI := mkTSCatGUI {
  (* the tscat store and the undo stack behind self.state *)
  store : gmap string Entity;
  undo_stack : QUndoStack;
  (* attributes of the widget *)
  programmatic_select : bool;
  catalogue_sort_filter_model : option Proxy;   (* None: attribute not set *)
  events_sort_model : Proxy;
  catalogue_model : Model;
  events_model : Model;
  catalogues_view : list QModelIndex;           (* selected indexes *)
  events_view : list QModelIndex;
  (* isEnabled() of the five commands *)
  move_to_trash_action : bool;
  restore_from_trash_action : bool;
  delete_action : bool;
  new_event_action : bool;
  export_action : bool;
  (* menus of the two history tool buttons *)
  undo_toolbar_button : list QAction;
  redo_toolbar_button : list QAction;
  (* calls made so far, oldest first *)
  trace : list Op
}.

Definition with_store v w := mkTSCatGUI v (undo_stack w)
  (programmatic_select w) (catalogue_sort_filter_model w) (events_sort_model w)
  (catalogue_model w) (events_model w) (catalogues_view w) (events_view w)
  (move_to_trash_action w) (restore_from_trash_action w) (delete_action w)
  (new_event_action w) (export_action w) (undo_toolbar_button w)
  (redo_toolbar_button w) (trace w).

Definition with_undo_stack v w := mkTSCatGUI (store w) v
  (programmatic_select w) (catalogue_sort_filter_model w) (events_sort_model w)
  (catalogue_model w) (events_model w) (catalogues_view w) (events_view w)
  (move_to_trash_action w) (restore_from_trash_action w) (delete_action w)
  (new_event_action w) (export_action w) (undo_toolbar_button w)
  (redo_toolbar_button w) (trace w).

Definition with_programmatic_select v w := mkTSCatGUI (store w) (undo_stack w)
  v (catalogue_sort_filter_model w) (events_sort_model w)
  (catalogue_model w) (events_model w) (catalogues_view w) (events_view w)
  (move_to_trash_action w) (restore_from_trash_action w) (delete_action w)
  (new_event_action w) (export_action w) (undo_toolbar_button w)
  (redo_toolbar_button w) (trace w).

Definition with_catalogue_model v w := mkTSCatGUI (store w) (undo_stack w)
  (programmatic_select w) (catalogue_sort_filter_model w) (events_sort_model w)
  v (events_model w) (catalogues_view w) (events_view w)
  (move_to_trash_action w) (restore_from_trash_action w) (delete_action w)
  (new_event_action w) (export_action w) (undo_toolbar_button w)
  (redo_toolbar_button w) (trace w).

Definition with_events_model v w := mkTSCatGUI (store w) (undo_stack w)
  (programmatic_select w) (catalogue_sort_filter_model w) (events_sort_model w)
  (catalogue_model w) v (catalogues_view w) (events_view w)
  (move_to_trash_action w) (restore_from_trash_action w) (delete_action w)
  (new_event_action w) (export_action w) (undo_toolbar_button w)
  (redo_toolbar_button w) (trace w).

Definition with_catalogues_view v w := mkTSCatGUI (store w) (undo_stack w)
  (programmatic_select w) (catalogue_sort_filter_model w) (events_sort_model w)
  (catalogue_model w) (events_model w) v (events_view w)
  (move_to_trash_action w) (restore_from_trash_action w) (delete_action w)
  (new_event_action w) (export_action w) (undo_toolbar_button w)
  (redo_toolbar_button w) (trace w).

Definition with_events_view v w := mkTSCatGUI (store w) (undo_stack w)
  (programmatic_select w) (catalogue_sort_filter_model w) (events_sort_model w)
  (catalogue_model w) (events_model w) (catalogues_view w) v
  (move_to_trash_action w) (restore_from_trash_action w) (delete_action w)
  (new_event_action w) (export_action w) (undo_toolbar_button w)
  (redo_toolbar_button w) (trace w).

Definition with_move_to_trash_action v w := mkTSCatGUI (store w) (undo_stack w)
  (programmatic_select w) (catalogue_sort_filter_model w) (events_sort_model w)
  (catalogue_model w) (events_model w) (catalogues_view w) (events_view w)
  v (restore_from_trash_action w) (delete_action w)
  (new_event_action w) (export_action w) (undo_toolbar_button w)
  (redo_toolbar_button w) (trace w).

Definition with_restore_from_trash_action v w := mkTSCatGUI (store w)
  (undo_stack w)
  (programmatic_select w) (catalogue_sort_filter_model w) (events_sort_model w)
  (catalogue_model w) (events_model w) (catalogues_view w) (events_view w)
  (move_to_trash_action w) v (delete_action w)
  (new_event_action w) (export_action w) (undo_toolbar_button w)
  (redo_toolbar_button w) (trace w).

Definition with_delete_action v w := mkTSCatGUI (store w) (undo_stack w)
  (programmatic_select w) (catalogue_sort_filter_model w) (events_sort_model w)
  (catalogue_model w) (events_model w) (catalogues_view w) (events_view w)
  (move_to_trash_action w) (restore_from_trash_action w) v
  (new_event_action w) (export_action w) (undo_toolbar_button w)
  (redo_toolbar_button w) (trace w).

Definition with_new_event_action v w := mkTSCatGUI (store w) (undo_stack w)
  (programmatic_select w) (catalogue_sort_filter_model w) (events_sort_model w)
  (catalogue_model w) (events_model w) (catalogues_view w) (events_view w)
  (move_to_trash_action w) (restore_from_trash_action w) (delete_action w)
  v (export_action w) (undo_toolbar_button w)
  (redo_toolbar_button w) (trace w).

Definition with_export_action v w := mkTSCatGUI (store w) (undo_stack w)
  (programmatic_select w) (catalogue_sort_filter_model w) (events_sort_model w)
  (catalogue_model w) (events_model w) (catalogues_view w) (events_view w)
  (move_to_trash_action w) (restore_from_trash_action w) (delete_action w)
  (new_event_action w) v (undo_toolbar_button w)
  (redo_toolbar_button w) (trace w).

Definition with_undo_toolbar_button v w := mkTSCatGUI (store w) (undo_stack w)
  (programmatic_select w) (catalogue_sort_filter_model w) (events_sort_model w)
  (catalogue_model w) (events_model w) (catalogues_view w) (events_view w)
  (move_to_trash_action w) (restore_from_trash_action w) (delete_action w)
  (new_event_action w) (export_action w) v
  (redo_toolbar_button w) (trace w).

Definition with_redo_toolbar_button v w := mkTSCatGUI (store w) (undo_stack w)
  (programmatic_select w) (catalogue_sort_filter_model w) (events_sort_model w)
  (catalogue_model w) (events_model w) (catalogues_view w) (events_view w)
  (move_to_trash_action w) (restore_from_trash_action w) (delete_action w)
  (new_event_action w) (export_action w) (undo_toolbar_button w)
  v (trace w).

Definition with_trace v w := mkTSCatGUI (store w) (undo_stack w)
  (programmatic_select w) (catalogue_sort_filter_model w) (events_sort_model w)
  (catalogue_model w) (events_model w) (catalogues_view w) (events_view w)
  (move_to_trash_action w) (restore_from_trash_action w) (delete_action w)
  (new_event_action w) (export_action w) (undo_toolbar_button w)
  (redo_toolbar_button w) v.

(** The five enablement flags, in the order the handler resets them. *)
Definition enablement (w : TSCatGUI) : list bool :=
  [move_to_trash_action w; restore_from_trash_action w; delete_action w;
   new_event_action w; export_action w].

(** ** Computations over the widget

    A method either returns or raises, and in both cases leaves a widget
    behind; [None] is reserved for a chain of nested signal deliveries
    deeper than the depth bound given to [updated]. *)
Definition M (A : Type) : Type := TSCatGUI -> option (Res A * TSCatGUI).

Definition ret {A} (a : A) : M A := fun w => Some (Ok a, w).

Definition bind {A B} (m : M A) (k : A -> M B) : M B :=
  fun w => match m w with
           | Some (Ok a, w') => k a w'
           | Some (Raise e, w') => Some (Raise e, w')
           | None => None
           end.

Definition raise {A} (e : PyExn) : M A := fun w => Some (Raise e, w).

Definition gets {A} (f : TSCatGUI -> A) : M A := fun w => Some (Ok (f w), w).

Definition modify (f : TSCatGUI -> TSCatGUI) : M unit :=
  fun w => Some (Ok tt, f w).

Definition log (o : Op) : M unit :=
  modify (fun w => with_trace (trace w ++ [o]) w).

(** A call into tscat: its value, or its exception in the caller. *)
Definition lift {A} (r : Res A) : M A :=
  match r with
  | Ok a => ret a
  | Raise e => raise e
  end.

#[local] Notation "'let*' x ':=' m 'in' k" := (bind m (fun x => k))
  (at level 10, x name, m at level 100, k at level 200, only parsing).
#[local] Notation "m '>>' k" := (bind m (fun _ => k))
  (at level 100, k at level 200, right associativity, only parsing).

Definition when (b : bool) (m : M unit) : M unit := if b then m else ret tt.

(** [for x in l: body(x)] *)
Fixpoint for_each {A} (l : list A) (body : A -> M unit) : M unit :=
  match l with
  | [] => ret tt
  | x :: rest => body x >> for_each rest body
  end.

(** [action in [...]] on Python strings *)
Definition py_in (action : string) (l : list string) : bool :=
  existsb (String.eqb action) l.

(** ** Views and models *)

Definition view (k : Kind) (w : TSCatGUI) : list QModelIndex :=
  match k with Catalogue => catalogues_view w | Event => events_view w end.

Definition with_view (k : Kind) (v : list QModelIndex) (w : TSCatGUI) :=
  match k with
  | Catalogue => with_catalogues_view v w
  | Event => with_events_view v w
  end.

Definition model (k : Kind) (w : TSCatGUI) : Model :=
  match k with Catalogue => catalogue_model w | Event => events_model w end.

Definition with_model (k : Kind) (v : Model) (w : TSCatGUI) :=
  match k with
  | Catalogue => with_catalogue_model v w
  | Event => with_events_model v w
  end.

(** Qt delivers a signal over a direct connection by calling the slot.
    An exception that leaves a slot is reported and the emitting call
    goes on. *)
Definition deliver (slot : M unit) : M unit :=
  fun w => match slot w with
           | Some (Ok _, w') => Some (Ok tt, w')
           | Some (Raise e, w') =>
               Some (Ok tt, with_trace (trace w' ++ [SlotError e]) w')
           | None => None
           end.

(** [model.reset()]: the model reloads from the store; the selection
    model of the view on it is cleared without a signal. *)
Definition model_reset (k : Kind) : M unit :=
  log (ModelReset k) >>
  modify (fun w => with_view k [] (with_model k (reset k (store w) (model k w)) w)).

(** [view.clearSelection()]: [selectionChanged] is emitted when something
    was deselected. [on_changed] is the slot connected to the signal. *)
Definition clearSelection (on_changed : Kind -> M unit) (k : Kind) : M unit :=
  log (ClearSelection k) >>
  let* sel := gets (view k) in
  match sel with
  | [] => ret tt
  | _ :: _ => modify (with_view k []) >> deliver (on_changed k)
  end.

(** [view.selectionModel().select(i, Select)]: a valid index that is not
    selected yet is added and [selectionChanged] is emitted. *)
Definition select (on_changed : Kind -> M unit) (k : Kind) (i : QModelIndex)
  : M unit :=
  log (Select k i) >>
  let* sel := gets (view k) in
  if isValid i && negb (bool_decide (i ∈ sel))
  then modify (with_view k (sel ++ [i])) >> deliver (on_changed k)
  else ret tt.

(** [[index.data(UUIDRole) for index in view.selectedIndexes()]]; in the
    events view one index per row is kept ([index.column() == 0]). *)
Definition selected_uuids (k : Kind) (w : TSCatGUI) : list UUID :=
  map (UUIDRole k (model k w)) (view k w).

(** ** [utils.helper.get_entity_from_uuid_safe] *)

(** Modelled from the spec: [utils/helper.py] is not part of this file.
    The store resolves a UUID to an entity or to NotFound (section 6,
    [resolve(UUID) -> Entity | NotFound]). Every caller here uses the
    result as an entity at once, so NotFound reaches the caller as a
    Python exception. *)
Definition get_entity_from_uuid_safe (uuid : UUID) : M Entity :=
  fun w => match store w !! uuid with
           | Some e => Some (Ok e, w)
           | None => Some (Raise (EntityNotFound uuid), w)
           end.

(** ** The slots of [TSCatGUI] *)

(** [__current_event_changed] (lines 113-116). [updated] is
    [self.state.updated]. *)
Definition current_event_changed
  (updated : string -> Kind -> list UUID -> M unit) : M unit :=
  let* guard := gets programmatic_select in
  if negb guard then
    let* uuids := gets (selected_uuids Event) in
    updated "active_select" Event uuids
  else ret tt.

(** [__catalogue_selection_changed] (lines 118-121). *)
Definition catalogue_selection_changed
  (updated : string -> Kind -> list UUID -> M unit) : M unit :=
  let* guard := gets programmatic_select in
  if negb guard then
    let* uuids := gets (selected_uuids Catalogue) in
    updated "active_select" Catalogue uuids
  else ret tt.

(** The connections made in [__setup_ui] (lines 227 and 265): which slot
    the [selectionChanged] signal of each view calls. *)
Definition selectionChanged
  (updated : string -> Kind -> list UUID -> M unit) (k : Kind) : M unit :=
  match k with
  | Catalogue => catalogue_selection_changed updated
  | Event => current_event_changed updated
  end.

(** Lines 100-106: the loop over [map(get_entity_from_uuid_safe, uuids)],
    with the two local flags. *)
Fixpoint scan_removed (uuids : list UUID) (enable_restore enable_move_to_trash : bool)
  : M (bool * bool) :=
  match uuids with
  | [] => ret (enable_restore, enable_move_to_trash)
  | u :: rest =>
      let* entity := get_entity_from_uuid_safe u in
      if is_removed entity
      then scan_removed rest (enable_restore || true) enable_move_to_trash
      else scan_removed rest enable_restore (enable_move_to_trash || true)
  end.

(** Lines 89-111 of [__state_changed]. *)
Definition update_enablement (action : string) (uuids : list UUID) : M unit :=
  when (String.eqb action "active_select") (
    modify (with_move_to_trash_action false) >>
    modify (with_restore_from_trash_action false) >>
    modify (with_delete_action false) >>
    modify (with_new_event_action false) >>
    modify (with_export_action false) >>
    match uuids with
    | [] => ret tt
    | _ :: _ =>
        when (Z.of_nat (length uuids) =? 1) (modify (with_new_event_action true)) >>
        let* flags := scan_removed uuids false false in
        modify (with_restore_from_trash_action (fst flags)) >>
        modify (with_move_to_trash_action (snd flags)) >>
        modify (with_delete_action true) >>
        modify (with_export_action true)
    end).

(** [self.catalogue_sort_filter_model]: reading an attribute that was
    never assigned raises [AttributeError]. *)
Definition get_catalogue_sort_filter_model : M Proxy :=
  fun w => match catalogue_sort_filter_model w with
           | Some p => Some (Ok p, w)
           | None => Some (Raise (AttributeError "catalogue_sort_filter_model"), w)
           end.

(** Lines 62-87 of [__state_changed]. *)
Definition sync_selection (on_changed : Kind -> M unit)
  (action : string) (type : Kind) (uuids : list UUID) : M unit :=
  when (py_in action ["changed"; "moved"; "inserted"; "deleted";
                      "active_select"; "passive_select"]) (
    match type with
    | Catalogue =>
        when (negb (py_in action ["active_select"; "passive_select"]))
             (model_reset Catalogue) >>
        let* m := gets catalogue_model in
        let indexes := map (index_from_uuid Catalogue m) uuids in
        let* proxy := get_catalogue_sort_filter_model in
        let indexes := map (mapFromSource proxy m) indexes in
        modify (with_programmatic_select true) >>
        clearSelection on_changed Catalogue >>
        for_each indexes (select on_changed Catalogue) >>
        modify (with_programmatic_select false)
    | Event =>
        when (negb (py_in action ["active_select"; "passive_select"]))
             (model_reset Event) >>
        let* m := gets events_model in
        let indexes := map (index_from_uuid Event m) uuids in
        let* proxy := gets events_sort_model in
        let indexes := map (mapFromSource proxy m) indexes in
        modify (with_programmatic_select true) >>
        clearSelection on_changed Event >>
        for_each indexes (select on_changed Event) >>
        modify (with_programmatic_select false)
    end).

(** [__state_changed] (lines 60-111). *)
Definition state_changed (on_changed : Kind -> M unit)
  (action : string) (type : Kind) (uuids : list UUID) : M unit :=
  sync_selection on_changed action type uuids >>
  update_enablement action uuids.

(** [_external_signal_emission] (lines 400-411). *)
Definition external_signal_emission
  (action : string) (type : Kind) (uuids : list UUID) : M unit :=
  if String.eqb action "active_select" then
    match type with
    | Catalogue => log (Emit catalogues_selected uuids)
    | Event => log (Emit events_selected uuids)
    end
  else if String.eqb action "changed" then
    match type with
    | Catalogue => log (Emit catalogues_changed uuids)
    | Event => log (Emit events_changed uuids)
    end
  else ret tt.

(** ** [AppState.updated] *)

(** Modelled from the spec: [state.py] is not part of this file.
    [notify(verb, kind, uuids)] delivers the action synchronously to the
    registered subscribers in registration order (section 4.2); the
    widget registers [_external_signal_emission] and then
    [__state_changed] (lines 57-58). The undo history is not touched by a
    notification. [depth] bounds the nesting of notifications raised from
    inside slots. *)
Fixpoint updated (depth : nat) (action : string) (type : Kind)
  (uuids : list UUID) : M unit :=
  match depth with
  | O => fun _ => None
  | S d =>
      log (Notify action type uuids) >>
      deliver (external_signal_emission action type uuids) >>
      deliver (state_changed (selectionChanged (updated d)) action type uuids)
  end.

(** A selection made by the user in the view of kind [k]: Qt replaces
    the selection of the view and emits [selectionChanged] once. *)
Definition user_selects (depth : nat) (k : Kind) (sel : list QModelIndex)
  : M unit :=
  modify (with_view k sel) >> deliver (selectionChanged (updated depth) k).

(** ** The history menus *)

Definition setMenu (b : ToolButton) (menu : list QAction) : M unit :=
  match b with
  | undo_button => modify (with_undo_toolbar_button menu)
  | redo_button => modify (with_redo_toolbar_button menu)
  end.

(** The loop of lines 131-135: one action per index of the range, its
    text read from the stack, its lambda created with the current [i]. *)
Fixpoint add_history_actions (index_range : list Z) (index_inc : Z)
  (menu : list QAction) : M (list QAction) :=
  match index_range with
  | [] => ret menu
  | i :: rest =>
      let* stack := gets undo_stack in
      match command stack i with
      | None => raise (AttributeError "text")
      | Some t =>
          add_history_actions rest index_inc
            (menu ++ [mkQAction t true (Some (mkLambda i index_inc))])
      end
  end.

(** [__create_undo_redo_action_menu_on_toolbutton] (lines 123-142). *)
Definition create_undo_redo_action_menu_on_toolbutton
  (index_range : list Z) (toolbutton : ToolButton) (index_inc : Z)
  (more_items : bool) (more_items_text : string) : M unit :=
  let* menu := add_history_actions index_range index_inc [] in
  let menu := if more_items
              then menu ++ [mkQAction more_items_text false None]
              else menu in
  setMenu toolbutton menu.

(** [__undo_redo_index_changed] (lines 144-157). *)
Definition undo_redo_index_changed (index : Z) : M unit :=
  let max_action_count := 10 in
  let first_index := Z.max 0 (index - max_action_count) in
  create_undo_redo_action_menu_on_toolbutton
    (py_range (index - 1) (first_index - 1) (-1))
    undo_button 0 (negb (first_index =? 0))
    (py_str first_index ++ " more undo actions")%string >>
  let* stack := gets undo_stack in
  let last_index := Z.min (count stack) (index + max_action_count) in
  create_undo_redo_action_menu_on_toolbutton
    (py_range index last_index 1) redo_button 1
    (negb (last_index =? count stack))
    (py_str (count stack - last_index) ++ " more redo actions")%string.

(** Calling the lambda of a menu action: [setIndex(_i + inc)]. *)
Definition call (f : Lambda) (state : bool) : M unit :=
  log (SetIndex (_i f + inc f)).

(** The user picks an action of a menu; a disabled action cannot be
    triggered. *)
Definition trigger (a : QAction) : M unit :=
  match triggered a with
  | Some f => when (isEnabled a) (call f false)
  | None => ret tt
  end.

(** ** The public mutators (lines 413-437) *)

(** [update_event_range] (lines 413-417). Each of the two assignments
    reaches the store when tscat accepts it; the first refusal ends the
    method, before the notification and with what was assigned so far. *)
Definition update_event_range (depth : nat) (uuid : UUID) (start stop : Z)
  : M unit :=
  let* event := get_entity_from_uuid_safe uuid in
  let* event := lift (set_start start event) in
  modify (fun w => with_store (<[uuid := event]> (store w)) w) >>
  let* event := lift (set_stop stop event) in
  modify (fun w => with_store (<[uuid := event]> (store w)) w) >>
  updated depth "changed" Event [uuid].

(** [create_event] (lines 419-428). [event_uuid] is the UUID that the
    store gives the event it creates. *)
Definition create_event (depth : nat) (start stop : Z) (author : string)
  (catalogue_uuid : UUID) (event_uuid : UUID) : M Entity :=
  let* catalogue := get_entity_from_uuid_safe catalogue_uuid in
  match entity_type catalogue with
  | Event => raise AssertionError
  | Catalogue =>
      let* event := lift (session_create_event start stop author) in
      modify (fun w => with_store (<[event_uuid := event]> (store w)) w) >>
      modify (fun w => with_store
                         (alter (add_member event_uuid) catalogue_uuid (store w)) w) >>
      updated depth "inserted" Event [event_uuid] >>
      ret event
  end.

Definition move_to_trash (depth : nat) (uuid : UUID) : M unit :=
  let* entity := get_entity_from_uuid_safe uuid in
  modify (fun w => with_store (alter remove uuid (store w)) w) >>
  updated depth "moved" (entity_type entity) [uuid].

(** [save] (lines 435-437): the store persists itself and the undo stack
    is marked clean at its current index. *)
Definition save : M unit :=
  modify (fun w =>
    let st := undo_stack w in
    with_undo_stack (mkQUndoStack (commands st) (index st) (index st)) w).

(** ** [AppState.push_undo_command] *)

(** A command of [undo.py], as far as the history is concerned: its text
    and what executing it does. *)
Record Command := mkCommand { cmd_text : string; execute : M unit }.

(** Modelled from the spec: [state.py] and [undo.py] are not part of this
    file. A push truncates the entries to the cursor, executes the
    command, appends it and increments the cursor; a command whose
    [execute] fails is not appended (section 4.1). The stack then emits
    [indexChanged], which line 337 connects to
    [__undo_redo_index_changed]. The toolbar actions of lines 301-361 go
    through this call. *)
Definition push_undo_command (c : Command) : M unit :=
  execute c >>
  modify (fun w =>
    let st := undo_stack w in
    with_undo_stack
      (mkQUndoStack (firstn (Z.to_nat (index st)) (commands st) ++ [cmd_text c])
                    (index st + 1) (cleanIndex st)) w) >>
  let* st := gets undo_stack in
  deliver (undo_redo_index_changed (index st)).

(** ** Construction (lines 46-58 and [__setup_ui], lines 211-398)

    The five commands start disabled, the views start without a
    selection, and the guard starts unset. The statements that build
    [catalogue_sort_filter_model] are commented out (lines 253-257), so
    the attribute is not set. *)
Definition init (s : gmap string Entity) : TSCatGUI :=
  {| store := s;
     undo_stack := mkQUndoStack [] 0 0;
     programmatic_select := false;
     catalogue_sort_filter_model := None;
     events_sort_model := QSortFilterProxyModel;
     catalogue_model := tscat_root;
     events_model := EventModel;
     catalogues_view := [];
     events_view := [];
     move_to_trash_action := false;
     restore_from_trash_action := false;
     delete_action := false;
     new_event_action := false;
     export_action := false;
     undo_toolbar_button := [];
     redo_toolbar_button := [];
     trace := [] |}.

End Widget.

(** ** A list-backed instance of the collaborators

    Used to run the widget on concrete inputs: a model is the list of the
    UUIDs of its rows, [reset] reloads the entities of the model's kind
    from the store, and the proxy keeps the source order. *)
Module Demo.

Definition rows_of (k : Kind) (s : gmap string Entity) : list UUID :=
  map fst (filter (fun p => bool_decide (entity_type (snd p) = k)) (map_to_list s)).

Fixpoint find_row (rows : list UUID) (u : UUID) (r : nat) : QModelIndex :=
  match rows with
  | [] => InvalidIndex
  | x :: rest => if String.eqb x u then Row r else find_row rest u (S r)
  end.

Definition uuid_at (rows : list UUID) (i : QModelIndex) : UUID :=
  match i with
  | InvalidIndex => EmptyString
  | Row r => nth r rows EmptyString
  end.

#[global] Instance collaborators : Collaborators := {|
  Model := list UUID;
  Proxy := unit;
  EventModel := [];
  tscat_root := [];
  QSortFilterProxyModel := tt;
  reset := fun k s _ => rows_of k s;
  index_from_uuid := fun _ rows u => find_row rows u 0;
  mapFromSource := fun _ _ i => i;
  UUIDRole := fun _ rows i => uuid_at rows i
|}.

(** A store with catalogue A (not trashed), catalogue T (trashed) and two
    events, the second trashed. *)
Definition catA : Entity := mkEntity Catalogue false 0 0 "ann" ["e1"; "e2"].
Definition catT : Entity := mkEntity Catalogue true 0 0 "ann" [].
Definition ev1 : Entity := mkEntity Event false 10 20 "ann" [].
Definition ev2 : Entity := mkEntity Event true 30 40 "bob" [].

Definition store0 : gmap string Entity :=
  <["A" := catA]> (<["T" := catT]> (<["e1" := ev1]> (<["e2" := ev2]> ∅))).

(** The widget as constructed over [store0], its events model loaded. *)
Definition w0 : TSCatGUI :=
  with_events_model ["e1"; "e2"] (init store0).

End Demo.

(** * Derived notions

    What the handlers compute, written as functions of the widget they
    start from; the lemmas below relate them to the handlers. *)

Section Outcomes.
Context `{Collaborators}.

Definition is_notify (o : Op) : bool :=
  match o with Notify _ _ _ => true | _ => false end.

Definition is_emit (o : Op) : bool :=
  match o with Emit _ _ => true | _ => false end.


(** What a [select] adds to a selection. *)
Definition selecting (sel : list QModelIndex) (i : QModelIndex)
  : list QModelIndex :=
  if isValid i && negb (bool_decide (i ∈ sel)) then sel ++ [i] else sel.

(** The calls to [state.updated] made so far. *)
Definition notifications (w : TSCatGUI) : list Op :=
  List.filter is_notify (trace w).

(** The signals emitted to the host application so far. *)
Definition emissions (w : TSCatGUI) : list Op :=
  List.filter is_emit (trace w).

Definition select_verbs : list string := ["active_select"; "passive_select"].

Definition handled_verbs : list string :=
  ["changed"; "moved"; "inserted"; "deleted"; "active_select"; "passive_select"].

(** The widget after [model.reset()] on the model of kind [k]. *)
Definition reloaded (k : Kind) (w : TSCatGUI) : TSCatGUI :=
  let w1 := with_trace (trace w ++ [ModelReset k]) w in
  with_view k [] (with_model k (reset k (store w1) (model k w1)) w1).

(** The widget when the selection is about to be re-applied. *)
Definition before_sync (action : string) (k : Kind) (w : TSCatGUI) : TSCatGUI :=
  if negb (py_in action select_verbs) then reloaded k w else w.

(** The view indexes of [uuids]: through the model's index function, then
    through the proxy. *)
Definition sync_indexes (p : Proxy) (k : Kind) (w : TSCatGUI)
  (uuids : list UUID) : list QModelIndex :=
  map (mapFromSource p (model k w)) (map (index_from_uuid k (model k w)) uuids).

(** The widget after the guarded clear-and-select of [idxs]. *)
Definition synced (k : Kind) (idxs : list QModelIndex) (w : TSCatGUI)
  : TSCatGUI :=
  with_programmatic_select false
    (with_view k (fold_left selecting idxs [])
       (with_trace (trace w ++ ClearSelection k :: map (Select k) idxs) w)).

(** The proxy that the branch for kind [k] reads. *)
Definition proxy_of (k : Kind) (w : TSCatGUI) : option Proxy :=
  match k with
  | Catalogue => catalogue_sort_filter_model w
  | Event => Some (events_sort_model w)
  end.

Definition removed_in (s : gmap string Entity) (u : UUID) : bool :=
  match s !! u with Some e => is_removed e | None => false end.

Definition kept_in (s : gmap string Entity) (u : UUID) : bool :=
  match s !! u with Some e => negb (is_removed e) | None => false end.

(** The first UUID of the list that the store does not resolve. *)
Fixpoint first_stale (s : gmap string Entity) (uuids : list UUID)
  : option UUID :=
  match uuids with
  | [] => None
  | u :: rest =>
      match s !! u with
      | Some _ => first_stale s rest
      | None => Some u
      end
  end.

Definition with_enablement (mv rs dl ne ex : bool) (w : TSCatGUI) : TSCatGUI :=
  with_export_action ex (with_delete_action dl
    (with_move_to_trash_action mv (with_restore_from_trash_action rs
      (with_new_event_action ne w)))).

(** Outcome of lines 89-111 for an [active_select]. *)
Definition enabled_for (uuids : list UUID) (w : TSCatGUI)
  : Res unit * TSCatGUI :=
  match uuids with
  | [] => (Ok tt, with_enablement false false false false false w)
  | _ :: _ =>
      let one := Z.of_nat (length uuids) =? 1 in
      match first_stale (store w) uuids with
      | Some u =>
          (Raise (EntityNotFound u),
           with_enablement false false false one false w)
      | None =>
          (Ok tt,
           with_enablement (existsb (kept_in (store w)) uuids)
             (existsb (removed_in (store w)) uuids) true one true w)
      end
  end.

(** Outcome of [__state_changed]. *)
Definition after_state_changed (action : string) (k : Kind)
  (uuids : list UUID) (w : TSCatGUI) : Res unit * TSCatGUI :=
  if py_in action handled_verbs then
    match proxy_of k w with
    | None =>
        (Raise (AttributeError "catalogue_sort_filter_model"),
         before_sync action k w)
    | Some p =>
        let ws := synced k (sync_indexes p k (before_sync action k w) uuids)
                    (before_sync action k w) in
        if String.eqb action "active_select" then enabled_for uuids ws
        else (Ok tt, ws)
    end
  else (Ok tt, w).

(** The signals [_external_signal_emission] emits for an action. *)
Definition emitted (action : string) (k : Kind) (uuids : list UUID)
  : list Op :=
  if String.eqb action "active_select" then
    [Emit (match k with
           | Catalogue => catalogues_selected
           | Event => events_selected
           end) uuids]
  else if String.eqb action "changed" then
    [Emit (match k with
           | Catalogue => catalogues_changed
           | Event => events_changed
           end) uuids]
  else [].

(** A slot that raised leaves its widget behind, with the error reported. *)
Definition settle (x : Res unit * TSCatGUI) : TSCatGUI :=
  match x with
  | (Ok _, w) => w
  | (Raise e, w) => with_trace (trace w ++ [SlotError e]) w
  end.

(** The widget when [__state_changed] is called for a notification. *)
Definition announced (action : string) (k : Kind) (uuids : list UUID)
  (w : TSCatGUI) : TSCatGUI :=
  with_trace (trace w ++ Notify action k uuids :: emitted action k uuids) w.

Definition reset_ops (action : string) (k : Kind) : list Op :=
  if negb (py_in action select_verbs) then [ModelReset k] else [].

Definition lookup_error (action : string) (uuids : list UUID) (w : TSCatGUI)
  : list Op :=
  if String.eqb action "active_select" then
    match first_stale (store w) uuids with
    | Some u => [SlotError (EntityNotFound u)]
    | None => []
    end
  else [].

(** The calls [__state_changed] makes, in order. *)
Definition handler_ops (action : string) (k : Kind) (uuids : list UUID)
  (w : TSCatGUI) : list Op :=
  if py_in action handled_verbs then
    reset_ops action k ++
    match proxy_of k w with
    | None => [SlotError (AttributeError "catalogue_sort_filter_model")]
    | Some p =>
        ClearSelection k ::
        map (Select k) (sync_indexes p k (before_sync action k w) uuids) ++
        lookup_error action uuids w
    end
  else [].

(** The five flags, in the order of [enablement], as lines 89-111 leave
    them for a selection [uuids] over a store [s]. *)
Definition flags_for (s : gmap string Entity) (uuids : list UUID) : list bool :=
  match uuids with
  | [] => [false; false; false; false; false]
  | _ :: _ =>
      let one := Z.of_nat (length uuids) =? 1 in
      match first_stale s uuids with
      | Some _ => [false; false; false; one; false]
      | None => [existsb (kept_in s) uuids; existsb (removed_in s) uuids;
                 true; one; true]
      end
  end.

(** The menu action built for history index [j] with increment [inc]. *)
Definition history_action (st : QUndoStack) (inc j : Z) : QAction :=
  mkQAction (default EmptyString (command st j)) true (Some (mkLambda j inc)).

(** The disabled entry that tells how many more commands there are. *)
Definition more_action (n : Z) (what : string) : QAction :=
  mkQAction (py_str n ++ what)%string false None.

End Outcomes.


(** A widget whose undo stack holds twelve commands, eleven applied. *)
Definition w_history : TSCatGUI :=
  with_undo_stack
    (mkQUndoStack ["c0"; "c1"; "c2"; "c3"; "c4"; "c5"; "c6"; "c7"; "c8"; "c9";
                   "c10"; "c11"] 11 0)
    Demo.w0.


(** * The rest of the file

    The sort order of the catalogue proxy, the refresh, import and export
    actions, and the inputs that drive the widget. *)

(** ** [_TrashAlwaysTopOrBottomSortFilterModel.lessThan] (lines 23-37) *)

(** [str.lower()] on one character. A string is a sequence of code points
    below 256; there the upper-case letters are [A-Z] and [U+00C0-U+00DE]
    without the multiplication sign [U+00D7], each 32 below its lower-case
    form. *)
Definition lower_char (c : ascii) : ascii :=
  let n := N_of_ascii c in
  if ((65 <=? n) && (n <=? 90) ||
      (192 <=? n) && (n <=? 222) && negb (n =? 215))%N
  then ascii_of_N (n + 32)
  else c.

(** [str.lower()] *)
Fixpoint lower (s : string) : string :=
  match s with
  | EmptyString => EmptyString
  | String c rest => String (lower_char c) (lower rest)
  end.

(** [lessThan]; [left] and [right] are the two [data(...)] strings, and
    [<] on strings compares code points lexicographically. *)
Definition lessThan (left right : string) : bool :=
  if String.eqb left "Trash" then false
  else if String.eqb right "Trash" then true
  else String.ltb (lower left) (lower right).

(** ** The file name of an export (lines 192-194) *)

(** [splitext] is [os.path.splitext]. *)
Definition export_filename (splitext : string -> string * string)
  (filename : string) : string :=
  let split_filename := splitext filename in
  if negb (String.eqb (snd split_filename) ".json")
  then (fst split_filename ++ ".json")%string
  else filename.

(** ** What the actions need from outside *)

(** A modal [QMessageBox]: its kind, title and text. *)
Inductive MessageBox :=
| information (title text : string)
| critical (title text : string).

(** [AppState.select_state()]: the entity type, the selected UUIDs and the
    selected catalogues. *)
Record SelectState := mkSelectState {
  sel_type : Kind;
  selected : list UUID;
  selected_catalogues : list UUID
}.

(** The operating system and [tscat], as the import and export actions
    use them. A file system is a map from file names to contents. *)
Class Environment := {
  ImportDict : Type;
  splitext : string -> string * string;                (* os.path.splitext *)
  open_for_writing : string -> option PyExn;           (* why open(name, 'w+') fails *)
  open_for_reading : string -> PyExn;                  (* why open(name) of no file fails *)
  canonicalize_json_import : string -> Res ImportDict; (* tscat *)
  export_json : list Entity -> Res string;             (* tscat *)
  str : PyExn -> string                                (* the text of f'{e}' *)
}.

Section Actions.
Context `{Collaborators} `{Environment}.

(** [try: m; ok ... except Exception as e: handler(e)] *)
Definition try_except {A B} (m : M A) (ok : A -> M B) (handler : PyExn -> M B)
  : M B :=
  fun w => match m w with
           | Some (Ok a, w') => ok a w'
           | Some (Raise e, w') => handler e w'
           | None => None
           end.

(** [[get_entity_from_uuid_safe(uuid) for uuid in uuids]] *)
Fixpoint get_entities (uuids : list UUID) : M (list Entity) :=
  match uuids with
  | [] => ret []
  | u :: rest =>
      bind (get_entity_from_uuid_safe u) (fun e =>
      bind (get_entities rest) (fun es => ret (e :: es)))
  end.

(** [__export_to_file] (lines 185-209). [filename] is the answer of the
    file dialog, [catalogues] is [select_state().selected_catalogues] and
    [fs] the file system; the result is the file system afterwards and
    the message box shown. Opening with ['w+'] creates or truncates the
    file. *)
Definition export_to_file (filename : string) (catalogues : list UUID)
  (fs : gmap string string) : M (gmap string string * option MessageBox) :=
  if String.eqb filename EmptyString then ret (fs, None)
  else
    let filename := export_filename splitext filename in
    let failed (fs' : gmap string string) (e : PyExn) :=
      ret (fs', Some (critical "Catalogue export"
             ("The selected catalogues could not be exported to " ++ filename ++
              " due to '" ++ str e ++ "'.")%string)) in
    match open_for_writing filename with
    | Some e => failed fs e
    | None =>
        let fs1 := <[filename := EmptyString]> fs in
        try_except (get_entities catalogues)
          (fun entities =>
             match export_json entities with
             | Ok json =>
                 ret (<[filename := json]> fs1,
                      Some (information "Catalogue export"
                        "The selected catalogues have been successfully exported"))
             | Raise e => failed fs1 e
             end)
          (failed fs1)
    end.

(** [__import_from_file] (lines 168-183). [push_import filename d] is
    [self.state.push_undo_command(Import, filename, d)]. *)
Definition import_from_file
  (push_import : string -> ImportDict -> M unit)
  (filename : string) (fs : gmap string string) : M (option MessageBox) :=
  if String.eqb filename EmptyString then ret None
  else
    let failed (e : PyExn) :=
      ret (Some (critical "Catalogue import"
             ("The selected file could not be imported: '" ++ str e ++ "'.")%string)) in
    match fs !! filename with
    | None => failed (open_for_reading filename)
    | Some data =>
        match canonicalize_json_import data with
        | Raise e => failed e
        | Ok import_dict =>
            try_except (push_import filename import_dict)
              (fun _ => ret None) failed
        end
    end.

(** [__refresh_current_selection] (lines 159-166). [current_selection]
    is what [self.state.select_state()] returns at line 160. *)
Definition refresh_current_selection (depth : nat)
  (current_selection : SelectState) : M unit :=
  bind (model_reset Catalogue) (fun _ =>
  bind (model_reset Event) (fun _ =>
  bind (match sel_type current_selection with
        | Event =>
            updated depth "passive_select" Catalogue
              (selected_catalogues current_selection)
        | Catalogue => ret tt
        end) (fun _ =>
  updated depth "active_select" (sel_type current_selection)
    (selected current_selection)))).

(** ** Inputs *)

(** What can happen to the widget from outside: a notification raised by
    [AppState] or by a command, a selection made by the user, a call of a
    public method by the host, a move of the undo index, the toolbar
    actions "Refresh" and "Save", a pick in a history menu, and a change
    that a command makes to the store. *)
Inductive Input :=
| Notified (action : string) (k : Kind) (uuids : list UUID)
| UserSelects (k : Kind) (sel : list QModelIndex)
| UpdateEventRange (uuid : UUID) (start stop : Z)
| CreateEvent (start stop : Z) (author : string) (catalogue_uuid event_uuid : UUID)
| MoveToTrash (uuid : UUID)
| IndexChanged (i : Z)
| Refresh (current_selection : SelectState)
| Save
| Trigger (a : QAction)
| StoreChanged (s : gmap string Entity).

Definition handle (depth : nat) (i : Input) : M unit :=
  match i with
  | Notified action k uuids => updated depth action k uuids
  | UserSelects k sel => user_selects depth k sel
  | UpdateEventRange uuid start stop => update_event_range depth uuid start stop
  | CreateEvent start stop author cu eu =>
      bind (create_event depth start stop author cu eu) (fun _ => ret tt)
  | MoveToTrash uuid => move_to_trash depth uuid
  | IndexChanged i => undo_redo_index_changed i
  | Refresh current_selection => refresh_current_selection depth current_selection
  | Save => save
  | Trigger a => trigger a
  | StoreChanged s => modify (with_store s)
  end.

(** The widget after a sequence of inputs; an exception that leaves a
    handler goes to its caller and the widget stays as the handler left
    it. *)
Fixpoint run (depth : nat) (inputs : list Input) (w : TSCatGUI)
  : option TSCatGUI :=
  match inputs with
  | [] => Some w
  | i :: rest =>
      match handle depth i w with
      | Some (_, w') => run depth rest w'
      | None => None
      end
  end.

(** The calls on the catalogue view that the selection synchronisation
    makes. *)
Definition is_catalogue_view_op (o : Op) : bool :=
  match o with
  | ClearSelection Catalogue | Select Catalogue _ => true
  | _ => false
  end.

End Actions.

(** ** A file system and a [tscat] to run the actions on *)
Module DemoEnv.

(** [str.rfind] of one character, [-1] when it does not occur. *)
Fixpoint rfind_from (c : ascii) (s : string) (pos found : Z) : Z :=
  match s with
  | EmptyString => found
  | String x rest =>
      rfind_from c rest (pos + 1) (if Ascii.eqb x c then pos else found)
  end.

Definition rfind (s : string) (c : ascii) : Z := rfind_from c s 0 (-1).

(** The loop of [genericpath._splitext] that skips leading dots: [true]
    when a character other than a dot lies in [[filenameIndex, dotIndex)]. *)
Fixpoint has_stem (fuel : nat) (p : string) (filenameIndex dotIndex : Z) : bool :=
  match fuel with
  | O => false
  | S fuel' =>
      if filenameIndex <? dotIndex then
        match String.get (Z.to_nat filenameIndex) p with
        | Some c =>
            if Ascii.eqb c "."%char
            then has_stem fuel' p (filenameIndex + 1) dotIndex
            else true
        | None => true
        end
      else false
  end.

(** [posixpath.splitext] *)
Definition posix_splitext (p : string) : string * string :=
  let sepIndex := rfind p "/"%char in
  let dotIndex := rfind p "."%char in
  if (sepIndex <? dotIndex) &&
     has_stem (String.length p) p (sepIndex + 1) dotIndex
  then (substring 0 (Z.to_nat dotIndex) p,
        substring (Z.to_nat dotIndex) (String.length p - Z.to_nat dotIndex) p)
  else (p, EmptyString).

#[global] Instance environment : Environment := {|
  ImportDict := string;
  splitext := posix_splitext;
  open_for_writing := fun name =>
    if String.prefix "/ro/" name then Some (AttributeError "read-only") else None;
  open_for_reading := fun _ => AttributeError "no such file";
  canonicalize_json_import := fun data =>
    if String.prefix "{" data then Ok data else Raise AssertionError;
  export_json := fun entities =>
    Ok ("{" ++ py_str (Z.of_nat (length entities)) ++ "}")%string;
  str := fun e =>
    match e with
    | AttributeError name => name
    | AssertionError => "assertion"
    | EntityNotFound uuid => uuid
    | ValueError => "value"
    end
|}.

End DemoEnv.

(** ** What the inputs preserve *)

Section Invariants.
Context `{Collaborators}.

(** Between inputs the guard is unset, and "delete" and "export" are
    enabled together, exactly when "move to trash" or "restore" is. *)
Definition idle_coherent (w : TSCatGUI) : Prop :=
  programmatic_select w = false /\
  delete_action w = export_action w /\
  delete_action w = move_to_trash_action w || restore_from_trash_action w.

(** The widget has no [catalogue_sort_filter_model] and has made no call
    on the selection of the catalogue view. *)
Definition catalogue_view_untouched (w : TSCatGUI) : Prop :=
  catalogue_sort_filter_model w = None /\
  Forall (fun o => is_catalogue_view_op o = false) (trace w).

(** [w'] differs from [w] at most in the store, the undo stack, the
    models, the view selections and the menus, and has made no further
    call on the selection of the catalogue view. *)
Definition same_core (w w' : TSCatGUI) : Prop :=
  programmatic_select w' = programmatic_select w /\
  catalogue_sort_filter_model w' = catalogue_sort_filter_model w /\
  enablement w' = enablement w /\
  exists delta,
    trace w' = trace w ++ delta /\
    Forall (fun o => is_catalogue_view_op o = false) delta.

End Invariants.

(** A file system with a file to import and an older export. *)
Definition demo_fs : gmap string string :=
  <["/in.json" := "{x}"]> (<["/out/cat.json" := "old"]> ∅).

(** A stand-in for the push of an [Import] command: it announces the
    imported catalogue. *)
Definition demo_push (filename : string)
  (d : @ImportDict DemoEnv.environment) : M unit :=
  updated 1 "inserted" Catalogue [d : string].

(** * Properties *)

Section Guard.
Context `{Collaborators}.

Ltac run := unfold bind, ret, gets, modify, log, when, raise; cbn.

Lemma bind_gets {A B} (f : TSCatGUI -> A) (k : A -> M B) w :
  bind (gets f) k w = k (f w) w.
Proof. reflexivity. Qed.

Lemma bind_modify {B} (f : TSCatGUI -> TSCatGUI) (k : unit -> M B) w :
  bind (modify f) k w = k tt (f w).
Proof. reflexivity. Qed.

Lemma bind_log {B} (o : Op) (k : unit -> M B) w :
  bind (log o) k w = k tt (with_trace (trace w ++ [o]) w).
Proof. reflexivity. Qed.

Lemma bind_returns {A B} (m : M A) (k : A -> M B) w a w' :
  m w = Some (Ok a, w') -> bind m k w = k a w'.
Proof. intros E. unfold bind. rewrite E. reflexivity. Qed.

Lemma bind_raises {A B} (m : M A) (k : A -> M B) w e w' :
  m w = Some (Raise e, w') -> bind m k w = Some (Raise e, w').
Proof. intros E. unfold bind. rewrite E. reflexivity. Qed.

(** The slot of a view, by the value of the guard. *)
Lemma selectionChanged_guard upd k w :
  selectionChanged upd k w =
  if programmatic_select w then Some (Ok tt, w)
  else upd "active_select" k (selected_uuids k w) w.
Proof.
  destruct k; unfold selectionChanged, catalogue_selection_changed,
    current_event_changed; run; destruct (programmatic_select w); reflexivity.
Qed.

Lemma deliver_guarded upd k w :
  programmatic_select w = true ->
  deliver (selectionChanged upd k) w = Some (Ok tt, w).
Proof.
  intros G. unfold deliver. rewrite selectionChanged_guard, G. reflexivity.
Qed.

Lemma view_with_view k v w : view k (with_view k v w) = v.
Proof. destruct k; reflexivity. Qed.

Lemma with_view_same k w : with_view k (view k w) w = w.
Proof. destruct k, w; reflexivity. Qed.

Lemma clearSelection_guarded upd k w :
  programmatic_select w = true ->
  clearSelection (selectionChanged upd) k w =
  Some (Ok tt, with_view k [] (with_trace (trace w ++ [ClearSelection k]) w)).
Proof.
  intros G. unfold clearSelection. run.
  destruct (view k _) eqn:V.
  - f_equal. f_equal. rewrite <- V at 1. symmetry. apply with_view_same.
  - rewrite deliver_guarded; [reflexivity | destruct k; exact G].
Qed.

Lemma select_guarded upd k i w :
  programmatic_select w = true ->
  select (selectionChanged upd) k i w =
  Some (Ok tt, with_view k (selecting (view k w) i)
                 (with_trace (trace w ++ [Select k i]) w)).
Proof.
  intros G. unfold select, selecting. run.
  replace (view k (with_trace (trace w ++ [Select k i]) w)) with (view k w)
    by (destruct k; reflexivity).
  destruct (isValid i && negb (bool_decide (i ∈ view k w))).
  - rewrite deliver_guarded; [reflexivity | destruct k; exact G].
  - f_equal. f_equal.
    replace (view k w) with (view k (with_trace (trace w ++ [Select k i]) w))
      by (destruct k; reflexivity).
    symmetry. apply with_view_same.
Qed.

Lemma select_loop_guarded upd k idxs : forall w,
  programmatic_select w = true ->
  for_each idxs (select (selectionChanged upd) k) w =
  Some (Ok tt, with_view k (fold_left selecting idxs (view k w))
                 (with_trace (trace w ++ map (Select k) idxs) w)).
Proof.
  induction idxs as [|i idxs IH]; intros w G; cbn.
  - unfold ret. rewrite app_nil_r.
    destruct k, w; reflexivity.
  - unfold bind. rewrite select_guarded by exact G.
    rewrite IH by (destruct k; exact G).
    rewrite view_with_view. f_equal. f_equal.
    destruct k, w; cbn; rewrite <- app_assoc; reflexivity.
Qed.

End Guard.

(** ** What the two halves of [__state_changed] compute *)

Section Handler.
Context `{Collaborators}.

Lemma model_reset_eq k w : model_reset k w = Some (Ok tt, reloaded k w).
Proof. reflexivity. Qed.

Lemma sync_selection_unhandled on_changed action k uuids w :
  py_in action handled_verbs = false ->
  sync_selection on_changed action k uuids w = Some (Ok tt, w).
Proof.
  intros U. unfold sync_selection. fold handled_verbs. rewrite U. reflexivity.
Qed.

Lemma sync_selection_runs upd action k uuids w p :
  py_in action handled_verbs = true ->
  proxy_of k w = Some p ->
  sync_selection (selectionChanged upd) action k uuids w =
  Some (Ok tt, synced k (sync_indexes p k (before_sync action k w) uuids)
                 (before_sync action k w)).
Proof.
  intros Hd P. unfold sync_selection. fold handled_verbs select_verbs.
  rewrite Hd. unfold when at 1. unfold before_sync.
  set (w1 := if negb (py_in action select_verbs) then reloaded k w else w).
  assert (P1 : proxy_of k w1 = Some p).
  { subst w1. destruct (negb _); [destruct k; exact P | exact P]. }
  assert (E : forall (X : Type) (f : M X),
    bind (when (negb (py_in action select_verbs)) (model_reset k)) (fun _ => f) w
    = f w1).
  { intros X f. subst w1. unfold bind, when.
    destruct (negb _); [rewrite model_reset_eq|]; reflexivity. }
  destruct k; rewrite E; clear E; rewrite bind_gets;
    [ erewrite bind_returns
        by (unfold get_catalogue_sort_filter_model; cbn in P1; rewrite P1;
            reflexivity)
    | rewrite bind_gets; cbn in P1; injection P1 as -> ];
    rewrite bind_modify;
    (erewrite bind_returns by (apply clearSelection_guarded; reflexivity));
    (erewrite bind_returns by (apply select_loop_guarded; reflexivity));
    unfold modify, synced, sync_indexes; cbn;
    rewrite <- app_assoc; reflexivity.
Qed.

Lemma sync_selection_no_proxy on_changed action uuids w :
  py_in action handled_verbs = true ->
  catalogue_sort_filter_model w = None ->
  sync_selection on_changed action Catalogue uuids w =
  Some (Raise (AttributeError "catalogue_sort_filter_model"),
        before_sync action Catalogue w).
Proof.
  intros Hd P. unfold sync_selection. fold handled_verbs select_verbs.
  rewrite Hd. unfold when at 1. unfold before_sync.
  unfold when.
  destruct (negb (py_in action select_verbs)).
  - erewrite bind_returns by apply model_reset_eq. rewrite bind_gets.
    apply bind_raises. unfold get_catalogue_sort_filter_model.
    replace (catalogue_sort_filter_model (reloaded Catalogue w)) with
      (catalogue_sort_filter_model w) by reflexivity.
    rewrite P. reflexivity.
  - erewrite bind_returns by reflexivity. rewrite bind_gets.
    apply bind_raises. unfold get_catalogue_sort_filter_model.
    rewrite P. reflexivity.
Qed.

(** *** Enablement *)

Lemma scan_removed_eq uuids : forall er em w,
  scan_removed uuids er em w =
  match first_stale (store w) uuids with
  | Some u => Some (Raise (EntityNotFound u), w)
  | None => Some (Ok (er || existsb (removed_in (store w)) uuids,
                      em || existsb (kept_in (store w)) uuids), w)
  end.
Proof.
  induction uuids as [|u rest IH]; intros er em w; cbn.
  - rewrite !orb_false_r. reflexivity.
  - unfold bind, get_entity_from_uuid_safe, removed_in at 1, kept_in at 1.
    destruct (store w !! u) as [e|]; [|reflexivity].
    destruct (is_removed e); rewrite IH;
      destruct (first_stale (store w) rest); cbn;
      rewrite ?orb_true_r, ?orb_false_r, ?orb_true_l; reflexivity.
Qed.

Lemma update_enablement_other action uuids w :
  String.eqb action "active_select" = false ->
  update_enablement action uuids w = Some (Ok tt, w).
Proof. intros E. unfold update_enablement. rewrite E. reflexivity. Qed.

Lemma update_enablement_active uuids w :
  update_enablement "active_select" uuids w =
  match uuids with
  | [] => Some (Ok tt, with_enablement false false false false false w)
  | _ :: _ =>
      let one := Z.of_nat (length uuids) =? 1 in
      match first_stale (store w) uuids with
      | Some u =>
          Some (Raise (EntityNotFound u),
                with_enablement false false false one false w)
      | None =>
          Some (Ok tt,
                with_enablement (existsb (kept_in (store w)) uuids)
                  (existsb (removed_in (store w)) uuids) true one true w)
      end
  end.
Proof.
  unfold update_enablement. cbn [String.eqb Ascii.eqb Bool.eqb when].
  rewrite !bind_modify.
  destruct uuids as [|u rest]; [reflexivity|].
  set (uuids := u :: rest). cbv zeta.
  destruct (Z.of_nat (length uuids) =? 1) eqn:One; unfold when;
    [rewrite bind_modify | erewrite bind_returns by reflexivity];
    unfold bind at 1; rewrite scan_removed_eq;
    cbn [store with_new_event_action with_export_action with_delete_action
         with_restore_from_trash_action with_move_to_trash_action];
    destruct (first_stale (store w) uuids); reflexivity.
Qed.

(** *** The whole handler and the whole notification *)

Lemma handled_active : py_in "active_select" handled_verbs = true.
Proof. reflexivity. Qed.

Lemma unhandled_not_active action :
  py_in action handled_verbs = false ->
  String.eqb action "active_select" = false.
Proof.
  intros U. destruct (String.eqb_spec action "active_select") as [->|];
    [discriminate U | reflexivity].
Qed.

Lemma state_changed_eq upd action k uuids w :
  state_changed (selectionChanged upd) action k uuids w =
  Some (after_state_changed action k uuids w).
Proof.
  unfold state_changed, after_state_changed.
  destruct (py_in action handled_verbs) eqn:Hd.
  - destruct (proxy_of k w) as [p|] eqn:P.
    + erewrite bind_returns by (eapply sync_selection_runs; eassumption).
      destruct (String.eqb_spec action "active_select") as [->|N].
      * rewrite update_enablement_active. unfold enabled_for.
        destruct uuids; [reflexivity|]. cbv zeta.
        destruct (first_stale _ _); reflexivity.
      * apply update_enablement_other. apply String.eqb_neq. exact N.
    + destruct k; [|discriminate P].
      apply bind_raises. apply sync_selection_no_proxy; assumption.
  - erewrite bind_returns by (apply sync_selection_unhandled; exact Hd).
    apply update_enablement_other. apply unhandled_not_active. exact Hd.
Qed.

Lemma with_trace_same w : with_trace (trace w) w = w.
Proof. destruct w; reflexivity. Qed.

Lemma external_signal_emission_eq action k uuids w :
  external_signal_emission action k uuids w =
  Some (Ok tt, with_trace (trace w ++ emitted action k uuids) w).
Proof.
  unfold external_signal_emission, emitted.
  destruct (String.eqb action "active_select");
    [destruct k; reflexivity|].
  destruct (String.eqb action "changed"); [destruct k; reflexivity|].
  rewrite app_nil_r, with_trace_same. reflexivity.
Qed.

Lemma deliver_eq (slot : M unit) w x :
  slot w = Some x -> deliver slot w = Some (Ok tt, settle x).
Proof.
  intros E. unfold deliver. rewrite E. destruct x as [[[]|e] w']; reflexivity.
Qed.

Lemma updated_eq d action k uuids w :
  updated (S d) action k uuids w =
  Some (Ok tt, settle (after_state_changed action k uuids
                         (announced action k uuids w))).
Proof.
  cbn [updated]. rewrite bind_log.
  erewrite bind_returns
    by (apply deliver_eq, external_signal_emission_eq).
  erewrite deliver_eq by apply state_changed_eq.
  cbn [settle]. unfold announced. cbn. rewrite <- app_assoc. reflexivity.
Qed.

(** *** What the handler leaves alone, and what it does to the views *)

Lemma trace_before_sync action k w :
  trace (before_sync action k w) = trace w ++ reset_ops action k.
Proof.
  unfold before_sync, reset_ops. destruct (negb _).
  - destruct k; reflexivity.
  - symmetry. apply app_nil_r.
Qed.

Lemma store_before_sync action k w : store (before_sync action k w) = store w.
Proof. unfold before_sync. destruct (negb _), k; reflexivity. Qed.

Lemma trace_with_enablement mv rs dl ne ex w :
  trace (with_enablement mv rs dl ne ex w) = trace w.
Proof. reflexivity. Qed.

Lemma trace_synced k idxs w :
  trace (synced k idxs w) = trace w ++ ClearSelection k :: map (Select k) idxs.
Proof. destruct k; reflexivity. Qed.

Lemma store_synced k idxs w : store (synced k idxs w) = store w.
Proof. destruct k; reflexivity. Qed.

Lemma first_stale_nil (s : gmap string Entity) : first_stale s [] = None.
Proof. reflexivity. Qed.

Lemma handler_trace action k uuids w :
  trace (settle (after_state_changed action k uuids w)) =
  trace w ++ handler_ops action k uuids w.
Proof.
  unfold after_state_changed, handler_ops, lookup_error.
  destruct (py_in action handled_verbs); [|symmetry; apply app_nil_r].
  destruct (proxy_of k w) as [p|].
  - destruct (String.eqb action "active_select").
    + unfold enabled_for. rewrite store_synced, store_before_sync.
      destruct uuids as [|u rest].
      * cbn [settle first_stale]. rewrite trace_with_enablement, trace_synced,
          trace_before_sync, app_nil_r, <- app_assoc. reflexivity.
      * cbv zeta. destruct (first_stale (store w) (u :: rest)); cbn [settle];
          [cbn [trace with_trace]|]; rewrite trace_with_enablement, trace_synced,
          trace_before_sync, <- ?app_assoc; cbn [app];
          rewrite ?app_nil_r, <- ?app_assoc; reflexivity.
    + cbn [settle]. rewrite trace_synced, trace_before_sync, app_nil_r,
        <- app_assoc. reflexivity.
  - cbn [settle trace with_trace]. rewrite trace_before_sync, <- app_assoc.
    reflexivity.
Qed.

Lemma handler_ops_quiet action k uuids w :
  Forall (fun o => is_notify o = false /\ is_emit o = false)
         (handler_ops action k uuids w).
Proof.
  unfold handler_ops, reset_ops, lookup_error.
  destruct (py_in action handled_verbs); [|constructor].
  apply Forall_app; split; [destruct (negb _); repeat constructor|].
  destruct (proxy_of k w); [|repeat constructor].
  constructor; [split; reflexivity|].
  apply Forall_app; split.
  - apply List.Forall_map, Forall_true. intros i. split; reflexivity.
  - destruct (String.eqb _ _); [|constructor].
    destruct (first_stale _ _); repeat constructor.
Qed.

Lemma filter_quiet (f : Op -> bool) (l : list Op) :
  Forall (fun o => f o = false) l -> List.filter f l = [].
Proof.
  induction 1 as [|o l E _ IH]; [reflexivity|]. cbn. rewrite E. exact IH.
Qed.

(** The handler notifies nobody, emits nothing, and does not touch the
    store, the undo stack or the history menus; an unset guard is unset
    again when it ends. *)
Lemma handler_frame action k uuids w :
  let w' := settle (after_state_changed action k uuids w) in
  notifications w' = notifications w /\
  emissions w' = emissions w /\
  store w' = store w /\
  undo_stack w' = undo_stack w /\
  (programmatic_select w = false -> programmatic_select w' = false).
Proof.
  cbv zeta. split; [|split].
  - unfold notifications. rewrite handler_trace, List.filter_app.
    rewrite (filter_quiet is_notify (handler_ops action k uuids w));
      [apply app_nil_r|].
    apply (Forall_impl _ _ _ (handler_ops_quiet action k uuids w)).
    intros o [E _]. exact E.
  - unfold emissions. rewrite handler_trace, List.filter_app.
    rewrite (filter_quiet is_emit (handler_ops action k uuids w));
      [apply app_nil_r|].
    apply (Forall_impl _ _ _ (handler_ops_quiet action k uuids w)).
    intros o [_ E]. exact E.
  - unfold after_state_changed, enabled_for, before_sync.
    destruct (py_in action handled_verbs); [|auto].
    destruct (proxy_of k w);
      [destruct (String.eqb action "active_select");
       [destruct uuids; [|cbv zeta; destruct (first_stale _ _)]|]|];
      destruct (negb _), k; cbn; auto.
Qed.

End Handler.

(** * The claims *)

Section Claims.
Context `{Collaborators}.

Lemma notifications_announced action k uuids w :
  notifications (announced action k uuids w) =
  notifications w ++ [Notify action k uuids].
Proof.
  unfold notifications, announced, emitted. cbn [trace with_trace].
  rewrite List.filter_app. f_equal. cbn.
  destruct (String.eqb action "active_select"); [reflexivity|].
  destruct (String.eqb action "changed"); reflexivity.
Qed.

Lemma emissions_announced action k uuids w :
  emissions (announced action k uuids w) =
  emissions w ++ emitted action k uuids.
Proof.
  unfold emissions, announced, emitted. cbn [trace with_trace].
  rewrite List.filter_app. f_equal. cbn.
  destruct (String.eqb action "active_select"); [reflexivity|].
  destruct (String.eqb action "changed"); reflexivity.
Qed.

(** A notification always returns, whatever its slots do, and counts as
    one call of [state.updated]: nothing that runs inside it calls
    [state.updated] again. *)
Lemma updated_once d action k uuids w :
  exists w',
    updated (S d) action k uuids w = Some (Ok tt, w') /\
    notifications w' = notifications w ++ [Notify action k uuids] /\
    emissions w' = emissions w ++ emitted action k uuids /\
    store w' = store w /\
    undo_stack w' = undo_stack w /\
    (programmatic_select w = false -> programmatic_select w' = false).
Proof.
  eexists. split; [apply updated_eq|].
  destruct (handler_frame action k uuids (announced action k uuids w))
    as (N & E & S & U & G).
  rewrite N, E, S, U, notifications_announced, emissions_announced.
  repeat split; try reflexivity. exact G.
Qed.

(** C1. With the guard set, the selection-changed slot of a view returns
    without calling [state.updated]; with the guard unset it makes exactly
    the call [updated('active_select', kind, current UUIDs)]. Every
    notification, whose handler re-applies the selection under the guard,
    terminates and accounts for one call of [state.updated] only, so a
    selection made by the user while the guard is unset yields exactly one
    [active_select] notification and leaves the guard unset. *)
Theorem selection_guard_single_notify (w : TSCatGUI) (d : nat) :
  programmatic_select w = false ->
  (forall upd k w1,
     programmatic_select w1 = true ->
     selectionChanged upd k w1 = Some (Ok tt, w1)) /\
  (forall upd k,
     selectionChanged upd k w = upd "active_select" k (selected_uuids k w) w) /\
  (forall action k uuids w1, exists w',
     updated (S d) action k uuids w1 = Some (Ok tt, w') /\
     notifications w' = notifications w1 ++ [Notify action k uuids]) /\
  (forall k sel, exists w',
     user_selects (S d) k sel w = Some (Ok tt, w') /\
     notifications w' =
       notifications w ++
       [Notify "active_select" k (selected_uuids k (with_view k sel w))] /\
     programmatic_select w' = false).
Proof.
  intros Idle. repeat split.
  - intros upd k w1 G. rewrite selectionChanged_guard, G. reflexivity.
  - intros upd k. rewrite selectionChanged_guard, Idle. reflexivity.
  - intros action k uuids w1.
    destruct (updated_once d action k uuids w1) as (w' & E & N & _).
    exists w'. split; assumption.
  - intros k sel. unfold user_selects. rewrite bind_modify.
    set (w2 := with_view k sel w).
    assert (G2 : programmatic_select w2 = false)
      by (subst w2; destruct k; exact Idle).
    destruct (updated_once d "active_select" k (selected_uuids k w2) w2)
      as (w' & E & N & _ & _ & _ & G).
    exists w'. unfold deliver. rewrite selectionChanged_guard, G2, E.
    repeat split; [|exact (G G2)].
    rewrite N. f_equal. subst w2. destruct k; reflexivity.
Qed.

(** C4. A notification whose verb is not [active_select] (a
    [passive_select], [changed], [moved], [inserted] or [deleted], or any
    other string) leaves the five enablement flags as they were. *)
Theorem enablement_untouched_unless_active_select
  (d : nat) (action : string) (k : Kind) (uuids : list UUID) (w : TSCatGUI) :
  action <> "active_select" ->
  exists w',
    updated (S d) action k uuids w = Some (Ok tt, w') /\
    enablement w' = enablement w.
Proof.
  intros N. apply String.eqb_neq in N.
  eexists. split; [apply updated_eq|].
  unfold after_state_changed. rewrite N.
  destruct (py_in action handled_verbs); [|reflexivity].
  destruct (proxy_of k _); unfold before_sync;
    destruct (negb _), k; reflexivity.
Qed.

(** C5. For every action, the signals emitted to the host are: for
    [active_select], [catalogues_selected] or [events_selected] by kind;
    for [changed], [catalogues_changed] or [events_changed] by kind; for
    every other verb, none. *)
Theorem external_signals_by_verb
  (d : nat) (action : string) (k : Kind) (uuids : list UUID) (w : TSCatGUI) :
  exists w',
    updated (S d) action k uuids w = Some (Ok tt, w') /\
    emissions w' =
      emissions w ++
      (if decide (action = "active_select") then
         [Emit (match k with
                | Catalogue => catalogues_selected
                | Event => events_selected
                end) uuids]
       else if decide (action = "changed") then
         [Emit (match k with
                | Catalogue => catalogues_changed
                | Event => events_changed
                end) uuids]
       else []).
Proof.
  destruct (updated_once d action k uuids w) as (w' & E & _ & Em & _).
  exists w'. split; [exact E|]. rewrite Em. f_equal. unfold emitted.
  destruct (String.eqb_spec action "active_select") as [->|N1].
  - reflexivity.
  - destruct (decide (action = "active_select")); [contradiction|].
    destruct (String.eqb_spec action "changed") as [->|N2].
    + reflexivity.
    + destruct (decide (action = "changed")); [contradiction|reflexivity].
Qed.

(** *** Enablement after an [active_select] *)

Lemma proxy_of_announced action k uuids w :
  proxy_of k (announced action k uuids w) = proxy_of k w.
Proof. destruct k; reflexivity. Qed.

(** Where the branch of the handler finds its proxy, an [active_select]
    re-applies the selection and then sets the flags from the store. *)
Lemma active_select_outcome d k uuids w p :
  proxy_of k w = Some p ->
  exists w',
    updated (S d) "active_select" k uuids w = Some (Ok tt, w') /\
    enablement w' = flags_for (store w) uuids /\
    trace w' =
      trace w ++
      Notify "active_select" k uuids :: emitted "active_select" k uuids ++
      ClearSelection k :: map (Select k) (sync_indexes p k w uuids) ++
      match first_stale (store w) uuids with
      | Some u => [SlotError (EntityNotFound u)]
      | None => []
      end.
Proof.
  intros P. eexists. split; [apply updated_eq|]. split.
  - unfold after_state_changed. rewrite handled_active, proxy_of_announced, P.
    cbn [String.eqb Ascii.eqb Bool.eqb]. unfold enabled_for, flags_for.
    rewrite store_synced, store_before_sync.
    change (store (announced "active_select" k uuids w)) with (store w).
    destruct uuids; [reflexivity|]. cbv zeta.
    destruct (first_stale (store w) _); reflexivity.
  - rewrite handler_trace. unfold handler_ops.
    rewrite handled_active, proxy_of_announced, P.
    unfold announced at 1. cbn [trace with_trace].
    rewrite <- app_assoc. reflexivity.
Qed.

(** X25. Where the catalogue branch finds no proxy, the handler stops at
    line 68, after the reset if the verb asks for one: the flags and the
    selection of the view are not touched, and the error is all that
    follows the announcement. *)
Lemma catalogue_branch_aborts d action uuids w :
  py_in action handled_verbs = true ->
  catalogue_sort_filter_model w = None ->
  exists w',
    updated (S d) action Catalogue uuids w = Some (Ok tt, w') /\
    enablement w' = enablement w /\
    trace w' =
      trace w ++
      Notify action Catalogue uuids :: emitted action Catalogue uuids ++
      reset_ops action Catalogue ++
      [SlotError (AttributeError "catalogue_sort_filter_model")].
Proof.
  intros Hd P. eexists. split; [apply updated_eq|]. split.
  - unfold after_state_changed. rewrite Hd.
    change (proxy_of Catalogue (announced action Catalogue uuids w))
      with (catalogue_sort_filter_model w).
    rewrite P. unfold before_sync. destruct (negb _); reflexivity.
  - rewrite handler_trace. unfold handler_ops. rewrite Hd.
    change (proxy_of Catalogue (announced action Catalogue uuids w))
      with (catalogue_sort_filter_model w).
    rewrite P. unfold announced. cbn [trace with_trace].
    rewrite <- app_assoc. reflexivity.
Qed.

(** X23. The rule of lines 96-111 where the handler runs to its end
    (every UUID resolves and the branch finds its proxy): "restore" is
    enabled exactly when a selected entity is in the trash, "move to
    trash" exactly when one is not, "delete" and "export" exactly when the
    selection is not empty. *)
Lemma enablement_rule d k uuids w p :
  proxy_of k w = Some p ->
  first_stale (store w) uuids = None ->
  exists w',
    updated (S d) "active_select" k uuids w = Some (Ok tt, w') /\
    restore_from_trash_action w' = existsb (removed_in (store w)) uuids /\
    move_to_trash_action w' = existsb (kept_in (store w)) uuids /\
    delete_action w' = negb (bool_decide (uuids = [])) /\
    export_action w' = negb (bool_decide (uuids = [])).
Proof.
  intros P F.
  destruct (active_select_outcome d k uuids w p P) as (w' & E & Fl & _).
  exists w'. split; [exact E|].
  unfold enablement, flags_for in Fl. rewrite F in Fl.
  destruct uuids; cbv zeta in Fl; injection Fl as -> -> -> _ ->;
    repeat split; reflexivity.
Qed.

(** C2, as amended. After an [active_select] whose handler gets past the
    selection synchronisation, "create event" is enabled exactly when one
    UUID is selected, of whichever kind. *)
Theorem create_event_enabled_iff_single
  (d : nat) (k : Kind) (uuids : list UUID) (w : TSCatGUI) (p : Proxy) :
  proxy_of k w = Some p ->
  exists w',
    updated (S d) "active_select" k uuids w = Some (Ok tt, w') /\
    (new_event_action w' = true <-> length uuids = 1%nat).
Proof.
  intros P.
  destruct (active_select_outcome d k uuids w p P) as (w' & E & Fl & _).
  exists w'. split; [exact E|].
  unfold enablement, flags_for in Fl.
  destruct uuids as [|u [|v rest]].
  - injection Fl as _ _ _ -> _. split; [discriminate|discriminate].
  - cbv zeta in Fl. destruct (first_stale _ _);
      injection Fl as _ _ _ -> _; split; reflexivity.
  - cbv zeta in Fl.
    assert (One : (Z.of_nat (length (u :: v :: rest)) =? 1) = false)
      by (apply Z.eqb_neq; cbn [length]; lia).
    rewrite One in Fl. destruct (first_stale _ _);
      injection Fl as _ _ _ -> _; (split; [discriminate|]);
      cbn [length]; lia.
Qed.



Lemma sync_indexes_announced p action k uuids w :
  sync_indexes p k (before_sync action k (announced action k uuids w)) uuids =
  sync_indexes p k (before_sync action k w) uuids.
Proof.
  unfold sync_indexes, before_sync. destruct (negb _), k; reflexivity.
Qed.

(** X24. Where the branch of the handler finds its proxy, a handled
    action is announced to the host first; the model is then reset when,
    and only when, the verb is not one of the two select verbs; then the
    view is cleared and the index of each UUID selected, in the order of
    the list. *)
Lemma sync_by_verb d action k uuids w p :
  py_in action handled_verbs = true ->
  proxy_of k w = Some p ->
  exists w',
    updated (S d) action k uuids w = Some (Ok tt, w') /\
    trace w' =
      trace w ++
      Notify action k uuids :: emitted action k uuids ++
      (if negb (py_in action select_verbs) then [ModelReset k] else []) ++
      ClearSelection k ::
      map (Select k) (sync_indexes p k (before_sync action k w) uuids) ++
      lookup_error action uuids w /\
    view k w' =
      fold_left selecting (sync_indexes p k (before_sync action k w) uuids) [].
Proof.
  intros Hd P. eexists. split; [apply updated_eq|]. split.
  - rewrite handler_trace. unfold handler_ops.
    rewrite Hd, proxy_of_announced, P, sync_indexes_announced.
    unfold announced at 1. cbn [trace with_trace].
    rewrite <- app_assoc. reflexivity.
  - unfold after_state_changed.
    rewrite Hd, proxy_of_announced, P, sync_indexes_announced.
    generalize (sync_indexes p k (before_sync action k w) uuids) as idxs.
    intros idxs.
    destruct (String.eqb action "active_select").
    + unfold enabled_for. destruct uuids as [|u rest].
      * unfold before_sync. destruct (negb _), k; reflexivity.
      * cbv zeta. destruct (first_stale _ _); unfold before_sync;
          destruct (negb _), k; reflexivity.
    + unfold before_sync. destruct (negb _), k; reflexivity.
Qed.

(** *** The public mutators *)

Lemma bind_lift {A B} (r : Res A) (k : A -> M B) w :
  bind (lift r) k w =
  match r with Ok a => k a w | Raise e => Some (Raise e, w) end.
Proof. destruct r; reflexivity. Qed.

Lemma get_entity_found uuid x w :
  store w !! uuid = Some x ->
  get_entity_from_uuid_safe uuid w = Some (Ok x, w).
Proof. intros L. unfold get_entity_from_uuid_safe. rewrite L. reflexivity. Qed.

Lemma get_entity_missing uuid w :
  store w !! uuid = None ->
  get_entity_from_uuid_safe uuid w = Some (Raise (EntityNotFound uuid), w).
Proof. intros L. unfold get_entity_from_uuid_safe. rewrite L. reflexivity. Qed.

Lemma alter_found (f : Entity -> Entity) (m : gmap string Entity) k x :
  m !! k = Some x -> alter f k m = <[k := f x]> m.
Proof.
  intros L. apply map_eq. intros j. destruct (decide (j = k)) as [->|N].
  - rewrite lookup_alter_eq, lookup_insert_eq, L. reflexivity.
  - rewrite lookup_alter_ne, lookup_insert_ne by congruence. reflexivity.
Qed.

(** [update_event_range] on an entity that resolves, by what the two
    setters answer. *)
Lemma update_event_range_eq d uuid s e ev w :
  store w !! uuid = Some ev ->
  update_event_range d uuid s e w =
    match set_start s ev with
    | Raise x => Some (Raise x, w)
    | Ok ev1 =>
        match set_stop e ev1 with
        | Raise x => Some (Raise x, with_store (<[uuid := ev1]> (store w)) w)
        | Ok ev2 =>
            updated d "changed" Event [uuid]
              (with_store (<[uuid := ev2]> (store w)) w)
        end
    end.
Proof.
  intros L. unfold update_event_range.
  erewrite bind_returns by (apply get_entity_found, L). rewrite bind_lift.
  destruct (set_start s ev) as [ev1|x]; [|reflexivity].
  rewrite bind_modify, bind_lift.
  destruct (set_stop e ev1) as [ev2|x]; [|reflexivity].
  rewrite bind_modify. f_equal. unfold with_store at 1. cbn [store with_store].
  rewrite insert_insert_eq. reflexivity.
Qed.

(** The same on an event, by the three ranges tscat tells apart. *)
Lemma update_event_range_event d uuid s e ev w :
  store w !! uuid = Some ev ->
  entity_type ev = Event ->
  update_event_range d uuid s e w =
    if stop ev <? s then Some (Raise ValueError, w)
    else if e <? s then
      Some (Raise ValueError,
            with_store
              (<[uuid := mkEntity Event (is_removed ev) s (stop ev) (author ev)
                           (members ev)]> (store w)) w)
    else
      updated d "changed" Event [uuid]
        (with_store
           (<[uuid := mkEntity Event (is_removed ev) s e (author ev)
                        (members ev)]> (store w)) w).
Proof.
  intros L T. rewrite (update_event_range_eq _ _ _ _ _ _ L).
  unfold set_start. rewrite T. destruct (stop ev <? s); [reflexivity|].
  unfold set_stop. cbn [entity_type start stop is_removed author members].
  destruct (e <? s); reflexivity.
Qed.

(** [create_event] on a catalogue, by what the session answers. *)
Lemma create_event_eq d s e a cu eu c w :
  store w !! cu = Some c ->
  entity_type c = Catalogue ->
  create_event d s e a cu eu w =
    if e <? s then Some (Raise ValueError, w)
    else
      bind (updated d "inserted" Event [eu])
        (fun _ => ret (mkEntity Event false s e a []))
        (with_store
           (alter (add_member eu) cu
              (<[eu := mkEntity Event false s e a []]> (store w))) w).
Proof.
  intros L T. unfold create_event.
  erewrite bind_returns by (apply get_entity_found, L).
  rewrite T, bind_lift. unfold session_create_event.
  destruct (e <? s); [reflexivity|]. rewrite !bind_modify. reflexivity.
Qed.

(** C10. [update_event_range], [create_event] and [move_to_trash] each
    end with the undo stack (commands, index and clean index) exactly as
    it was, whether they return or raise. When the entity they address
    resolves and tscat accepts the values, they change the store in place
    and announce the change with one [changed], [inserted] or [moved]
    notification. When tscat refuses a value with [ValueError], nothing is
    announced: a refused creation and a refused start leave the widget as
    it was, a refused stop leaves the event with its new start and its old
    stop. *)
Theorem public_mutators_bypass_undo_stack (d : nat) (w : TSCatGUI) :
  (forall uuid s e, exists r w',
     update_event_range (S d) uuid s e w = Some (r, w') /\
     undo_stack w' = undo_stack w /\
     forall ev, store w !! uuid = Some ev -> entity_type ev = Event ->
       (s <= stop ev -> s <= e ->
        r = Ok tt /\
        store w' =
          <[uuid := mkEntity Event (is_removed ev) s e (author ev)
                      (members ev)]> (store w) /\
        notifications w' =
          notifications w ++ [Notify "changed" Event [uuid]]) /\
       (s <= stop ev -> e < s ->
        r = Raise ValueError /\
        store w' =
          <[uuid := mkEntity Event (is_removed ev) s (stop ev) (author ev)
                      (members ev)]> (store w) /\
        trace w' = trace w) /\
       (stop ev < s -> r = Raise ValueError /\ w' = w)) /\
  (forall s e a cu eu, exists r w',
     create_event (S d) s e a cu eu w = Some (r, w') /\
     undo_stack w' = undo_stack w /\
     forall c, store w !! cu = Some c -> entity_type c = Catalogue ->
       (s <= e ->
        r = Ok (mkEntity Event false s e a []) /\
        store w' = alter (add_member eu) cu
                     (<[eu := mkEntity Event false s e a []]> (store w)) /\
        notifications w' = notifications w ++ [Notify "inserted" Event [eu]]) /\
       (e < s -> r = Raise ValueError /\ w' = w)) /\
  (forall uuid, exists r w',
     move_to_trash (S d) uuid w = Some (r, w') /\
     undo_stack w' = undo_stack w /\
     forall x, store w !! uuid = Some x ->
       r = Ok tt /\
       store w' =
         <[uuid := mkEntity (entity_type x) true (start x) (stop x) (author x)
                     (members x)]> (store w) /\
       notifications w' =
         notifications w ++ [Notify "moved" (entity_type x) [uuid]]).
Proof.
  split; [|split].
  - intros uuid s e.
    destruct (store w !! uuid) as [ev|] eqn:L.
    + destruct (entity_type ev) eqn:T.
      * rewrite (update_event_range_eq _ _ _ _ _ _ L).
        unfold set_start. rewrite T. unfold set_stop. cbn [entity_type].
        match goal with |- context [updated _ _ _ _ ?v] => set (w2 := v) end.
        destruct (updated_once d "changed" Event [uuid] w2)
          as (w' & E & _ & _ & _ & U & _).
        exists (Ok tt), w'. split; [exact E|]. split; [rewrite U; reflexivity|].
        intros ev' [= <-] T'. congruence.
      * rewrite (update_event_range_event _ _ _ _ _ _ L T).
        destruct (Z.ltb_spec (stop ev) s) as [A|A].
        -- exists (Raise ValueError), w. split; [reflexivity|].
           split; [reflexivity|]. intros ev' [= <-] _.
           split; [intros; lia|]. split; [intros; lia|].
           intros _. split; reflexivity.
        -- destruct (Z.ltb_spec e s) as [B|B].
           ++ eexists (Raise ValueError), _. split; [reflexivity|].
              split; [reflexivity|]. intros ev' [= <-] _.
              split; [intros; lia|]. split; [|intros; lia].
              intros _ _. repeat split.
           ++ match goal with
              | |- context [updated _ _ _ _ ?v] => set (w2 := v)
              end.
              destruct (updated_once d "changed" Event [uuid] w2)
                as (w' & E & N & _ & S & U & _).
              exists (Ok tt), w'. split; [exact E|].
              split; [rewrite U; reflexivity|]. intros ev' [= <-] _.
              split; [|split; intros; lia].
              intros _ _. rewrite N, S. repeat split.
    + exists (Raise (EntityNotFound uuid)), w. split.
      * apply bind_raises, get_entity_missing, L.
      * split; [reflexivity|]. intros ev' [=].
  - intros s e a cu eu.
    destruct (store w !! cu) as [c|] eqn:L.
    + destruct (entity_type c) eqn:Ty.
      * rewrite (create_event_eq _ _ _ _ _ _ _ _ L Ty).
        destruct (Z.ltb_spec e s) as [A|A].
        -- exists (Raise ValueError), w. split; [reflexivity|].
           split; [reflexivity|]. intros c' _ _.
           split; [intros; lia|]. intros _. split; reflexivity.
        -- match goal with |- context [bind _ _ ?v] => set (w2 := v) end.
           destruct (updated_once d "inserted" Event [eu] w2)
             as (w' & E & N & _ & S & U & _).
           exists (Ok (mkEntity Event false s e a [])), w'.
           split; [erewrite bind_returns by exact E; reflexivity|].
           split; [rewrite U; reflexivity|].
           intros c' _ _. split; [|intros; lia].
           intros _. rewrite N, S. repeat split.
      * exists (Raise AssertionError), w. split.
        -- unfold create_event.
           erewrite bind_returns by (apply get_entity_found, L).
           rewrite Ty. reflexivity.
        -- split; [reflexivity|]. intros c' [= <-] Ty'. congruence.
    + exists (Raise (EntityNotFound cu)), w. split.
      * apply bind_raises, get_entity_missing, L.
      * split; [reflexivity|]. intros c' [=].
  - intros uuid. unfold move_to_trash.
    destruct (store w !! uuid) as [x|] eqn:L.
    + erewrite bind_returns by (apply get_entity_found, L).
      rewrite !bind_modify.
      match goal with |- context [updated _ _ _ _ ?v] => set (w2 := v) end.
      destruct (updated_once d "moved" (entity_type x) [uuid] w2)
        as (w' & E & N & _ & S & U & _).
      exists (Ok tt), w'. split; [exact E|]. split; [rewrite U; reflexivity|].
      intros x' [= <-]. rewrite N, S. repeat split.
      subst w2. cbn [store with_store]. apply (alter_found remove), L.
    + exists (Raise (EntityNotFound uuid)), w. split.
      * apply bind_raises, get_entity_missing, L.
      * split; [reflexivity|]. intros x' [=].
Qed.

(** *** The history menus *)

Lemma command_in_range st j :
  0 <= j < count st -> exists t, command st j = Some t.
Proof.
  intros R. unfold command.
  replace ((0 <=? j) && (j <? count st)) with true
    by (symmetry; apply andb_true_iff; split;
        [apply Z.leb_le | apply Z.ltb_lt]; lia).
  destruct (nth_error (commands st) (Z.to_nat j)) eqn:E; [eauto|].
  apply nth_error_None in E. unfold count in R. lia.
Qed.

Lemma add_history_actions_eq idxs inc : forall menu w,
  Forall (fun j => 0 <= j < count (undo_stack w)) idxs ->
  add_history_actions idxs inc menu w =
  Some (Ok (menu ++ map (history_action (undo_stack w) inc) idxs), w).
Proof.
  induction idxs as [|j idxs IH]; intros menu w R; cbn [add_history_actions].
  - cbn. rewrite app_nil_r. reflexivity.
  - apply Forall_cons in R as [Rj R]. rewrite bind_gets.
    destruct (command_in_range _ _ Rj) as [t E]. rewrite E.
    rewrite IH by exact R. rewrite <- app_assoc. cbn [app map].
    unfold history_action at 2. rewrite E. reflexivity.
Qed.

Lemma range_before (i : Z) :
  0 <= i ->
  py_range (i - 1) (Z.max 0 (i - 10) - 1) (-1) =
  map (fun k => i - 1 - Z.of_nat k) (seq 0 (Z.to_nat (Z.min i 10))).
Proof.
  intros P. unfold py_range, range_length. cbn [Z.ltb Z.compare Z.opp].
  rewrite Z.div_1_r.
  replace (Z.max 0 (i - 1 - (Z.max 0 (i - 10) - 1) - -1 - 1)) with (Z.min i 10)
    by lia.
  apply map_ext. intros k. lia.
Qed.

Lemma range_after (i n : Z) :
  0 <= i <= n ->
  py_range i (Z.min n (i + 10)) 1 =
  map (fun k => i + Z.of_nat k) (seq 0 (Z.to_nat (Z.min (n - i) 10))).
Proof.
  intros P. unfold py_range, range_length. cbn [Z.ltb Z.compare].
  rewrite Z.div_1_r.
  replace (Z.max 0 (Z.min n (i + 10) - i + 1 - 1)) with (Z.min (n - i) 10)
    by lia.
  apply map_ext. intros k. lia.
Qed.

(** The two menus that [__undo_redo_index_changed] installs when the
    index it is given lies within the stack. *)
Lemma undo_redo_index_changed_eq i w :
  0 <= i <= count (undo_stack w) ->
  let st := undo_stack w in
  let n := count st in
  undo_redo_index_changed i w =
  Some (Ok tt,
    with_redo_toolbar_button
      (map (fun k => history_action st 1 (i + Z.of_nat k))
           (seq 0 (Z.to_nat (Z.min (n - i) 10))) ++
       (if 10 <? n - i then [more_action (n - i - 10) " more redo actions"]
        else []))
      (with_undo_toolbar_button
         (map (fun k => history_action st 0 (i - 1 - Z.of_nat k))
              (seq 0 (Z.to_nat (Z.min i 10))) ++
          (if 10 <? i then [more_action (i - 10) " more undo actions"]
           else []))
         w)).
Proof.
  intros R st n. assert (Rn : 0 <= i <= n) by exact R.
  unfold undo_redo_index_changed. cbv zeta.
  unfold create_undo_redo_action_menu_on_toolbutton.
  rewrite range_before by lia.
  erewrite (bind_returns (bind _ _) _ w).
  2:{ erewrite bind_returns.
      2:{ apply add_history_actions_eq.
          apply List.Forall_map, List.Forall_forall.
          intros k K%in_seq. fold st n. lia. }
      reflexivity. }
  rewrite bind_gets.
  match goal with |- context [bind _ _ ?v] => set (w1 := v) end.
  change (undo_stack w1) with st. fold n.
  rewrite range_after by exact Rn.
  erewrite bind_returns.
  2:{ apply add_history_actions_eq.
      apply List.Forall_map, List.Forall_forall.
      intros k K%in_seq. change (undo_stack w1) with st. fold n. lia. }
  cbn [setMenu app]. unfold modify. subst w1.
  change (undo_stack (with_undo_toolbar_button _ w)) with st.
  rewrite !map_map.
  assert (A1 : negb (Z.max 0 (i - 10) =? 0) = (10 <? i))
    by (destruct (Z.eqb_spec (Z.max 0 (i - 10)) 0), (Z.ltb_spec 10 i);
        try reflexivity; lia).
  assert (A2 : negb (Z.min n (i + 10) =? n) = (10 <? n - i))
    by (destruct (Z.eqb_spec (Z.min n (i + 10)) n), (Z.ltb_spec 10 (n - i));
        try reflexivity; lia).
  rewrite A1, A2.
  destruct (Z.ltb_spec 10 i), (Z.ltb_spec 10 (n - i));
    rewrite ?app_nil_r; unfold more_action;
    try (replace (Z.max 0 (i - 10)) with (i - 10) by lia);
    try (replace (n - Z.min n (i + 10)) with (n - i - 10) by lia);
    reflexivity.
Qed.

Lemma lookup_map_seq {A} (f : nat -> A) (tail : list A) (m : nat) :
  forall (s k : nat), (k < m)%nat ->
  (map f (seq s m) ++ tail) !! k = Some (f (s + k)%nat).
Proof.
  induction m as [|m IH]; intros s k K; [lia|].
  destruct k as [|k]; cbn.
  - f_equal. f_equal. lia.
  - rewrite IH by lia. f_equal. f_equal. lia.
Qed.

Lemma enabled_history_actions st inc (f : nat -> Z) (l : list nat)
  (c : bool) (m : QAction) :
  isEnabled m = false ->
  List.filter isEnabled
    (map (fun k => history_action st inc (f k)) l ++ (if c then [m] else [])) =
  map (fun k => history_action st inc (f k)) l.
Proof.
  intros D. rewrite List.filter_app.
  replace (List.filter isEnabled (if c then [m] else [])) with (@nil QAction)
    by (destruct c; cbn; rewrite ?D; reflexivity).
  rewrite app_nil_r.
  induction l as [|k l IH]; [reflexivity|]. cbn. f_equal. exact IH.
Qed.

(** A push whose command executes appends the command at the index,
    dropping the commands after it, and moves the index by one; a push
    whose command raises leaves the stack as [execute] left it. *)
Lemma push_undo_command_appends (c : Command) w w1 :
  execute c w = Some (Ok tt, w1) ->
  0 <= index (undo_stack w1) <= count (undo_stack w1) ->
  exists w',
    push_undo_command c w = Some (Ok tt, w') /\
    commands (undo_stack w') =
      firstn (Z.to_nat (index (undo_stack w1))) (commands (undo_stack w1)) ++
      [cmd_text c] /\
    index (undo_stack w') = index (undo_stack w1) + 1 /\
    cleanIndex (undo_stack w') = cleanIndex (undo_stack w1).
Proof.
  intros E R. unfold push_undo_command.
  erewrite bind_returns by exact E. rewrite bind_modify, bind_gets.
  match goal with |- context [deliver _ ?v] => set (w2 := v) end.
  assert (R2 : 0 <= index (undo_stack w2) <= count (undo_stack w2)).
  { subst w2. cbn. unfold count in *. cbn.
    rewrite length_app, length_firstn. cbn. lia. }
  erewrite deliver_eq by (apply undo_redo_index_changed_eq; exact R2).
  eexists. split; [reflexivity|]. repeat split.
Qed.

Lemma push_undo_command_atomic (c : Command) w e w1 :
  execute c w = Some (Raise e, w1) ->
  push_undo_command c w = Some (Raise e, w1).
Proof. intros E. apply bind_raises. exact E. Qed.

(** C7. When the index moves to [i] over a stack of [n] commands, the
    undo menu lists the [min i 10] commands before the index, nearest
    first, and the redo menu the [min (n - i) 10] commands from the index
    on; each menu ends with one more, disabled, entry exactly when there
    are more than ten such commands, and that entry names how many are
    left out: [i - 10] and [n - i - 10]. *)
Theorem history_menus_capped (w : TSCatGUI) (i : Z) :
  0 <= i <= count (undo_stack w) ->
  let st := undo_stack w in
  let n := count st in
  exists w',
    undo_redo_index_changed i w = Some (Ok tt, w') /\
    undo_toolbar_button w' =
      map (fun k => history_action st 0 (i - 1 - Z.of_nat k))
          (seq 0 (Z.to_nat (Z.min i 10))) ++
      (if 10 <? i then [more_action (i - 10) " more undo actions"] else []) /\
    redo_toolbar_button w' =
      map (fun k => history_action st 1 (i + Z.of_nat k))
          (seq 0 (Z.to_nat (Z.min (n - i) 10))) ++
      (if 10 <? n - i then [more_action (n - i - 10) " more redo actions"]
       else []) /\
    Z.of_nat (length (List.filter isEnabled (undo_toolbar_button w'))) =
      Z.min i 10 /\
    Z.of_nat (length (List.filter isEnabled (redo_toolbar_button w'))) =
      Z.min (n - i) 10.
Proof.
  intros R st n. assert (Rn : 0 <= i <= n) by exact R.
  eexists. split; [apply undo_redo_index_changed_eq; exact R|].
  cbn [undo_toolbar_button redo_toolbar_button with_redo_toolbar_button
       with_undo_toolbar_button]. fold st n.
  split; [reflexivity|]. split; [reflexivity|].
  rewrite !enabled_history_actions by reflexivity.
  rewrite !length_map, !length_seq. lia.
Qed.

(** C9. Each action of the rebuilt menus carries the index it was built
    for: the action at position [k] of the undo menu shows command
    [i - 1 - k] and its trigger calls [setIndex(i - 1 - k)]; the action at
    position [k] of the redo menu shows command [i + k] and its trigger
    calls [setIndex(i + k + 1)]. Triggers of different actions of a menu
    therefore make different calls. *)
Theorem history_actions_jump_to_own_index (w : TSCatGUI) (i : Z) :
  0 <= i <= count (undo_stack w) ->
  let st := undo_stack w in
  let n := count st in
  exists w',
    undo_redo_index_changed i w = Some (Ok tt, w') /\
    (forall (k : nat) (a : QAction),
       Z.of_nat k < Z.min i 10 ->
       undo_toolbar_button w' !! k = Some a ->
       let j := i - 1 - Z.of_nat k in
       command st j = Some (text a) /\
       forall v, trigger a v = Some (Ok tt, with_trace (trace v ++ [SetIndex j]) v)) /\
    (forall (k : nat) (a : QAction),
       Z.of_nat k < Z.min (n - i) 10 ->
       redo_toolbar_button w' !! k = Some a ->
       let j := i + Z.of_nat k in
       command st j = Some (text a) /\
       forall v,
         trigger a v = Some (Ok tt, with_trace (trace v ++ [SetIndex (j + 1)]) v)) /\
    (forall (k1 k2 : nat) (a1 a2 : QAction) v,
       k1 <> k2 ->
       Z.of_nat k1 < Z.min i 10 -> Z.of_nat k2 < Z.min i 10 ->
       undo_toolbar_button w' !! k1 = Some a1 ->
       undo_toolbar_button w' !! k2 = Some a2 ->
       trigger a1 v <> trigger a2 v) /\
    (forall (k1 k2 : nat) (a1 a2 : QAction) v,
       k1 <> k2 ->
       Z.of_nat k1 < Z.min (n - i) 10 -> Z.of_nat k2 < Z.min (n - i) 10 ->
       redo_toolbar_button w' !! k1 = Some a1 ->
       redo_toolbar_button w' !! k2 = Some a2 ->
       trigger a1 v <> trigger a2 v).
Proof.
  intros R st n. assert (Rn : 0 <= i <= n) by exact R.
  eexists. split; [apply undo_redo_index_changed_eq; exact R|].
  cbn [undo_toolbar_button redo_toolbar_button with_redo_toolbar_button
       with_undo_toolbar_button]. fold st n.
  assert (U : forall (k : nat) a, Z.of_nat k < Z.min i 10 ->
    (map (fun k => history_action st 0 (i - 1 - Z.of_nat k))
         (seq 0 (Z.to_nat (Z.min i 10))) ++
     (if 10 <? i then [more_action (i - 10) " more undo actions"] else []))
    !! k = Some a ->
    a = history_action st 0 (i - 1 - Z.of_nat k)).
  { intros k a K L. rewrite lookup_map_seq in L by lia.
    injection L as <-. reflexivity. }
  assert (V : forall (k : nat) a, Z.of_nat k < Z.min (n - i) 10 ->
    (map (fun k => history_action st 1 (i + Z.of_nat k))
         (seq 0 (Z.to_nat (Z.min (n - i) 10))) ++
     (if 10 <? n - i then [more_action (n - i - 10) " more redo actions"]
      else []))
    !! k = Some a ->
    a = history_action st 1 (i + Z.of_nat k)).
  { intros k a K L. rewrite lookup_map_seq in L by lia.
    injection L as <-. reflexivity. }
  assert (T : forall inc j, 0 <= j < n ->
    command st j = Some (text (history_action st inc j)) /\
    forall v, trigger (history_action st inc j) v =
              Some (Ok tt, with_trace (trace v ++ [SetIndex (j + inc)]) v)).
  { intros inc j J. destruct (command_in_range st j J) as [t E].
    split; [|reflexivity]. cbn. rewrite E. reflexivity. }
  split; [|split; [|split]].
  - intros k a K L. rewrite (U k a K L).
    destruct (T 0 (i - 1 - Z.of_nat k)) as [C Tr]; [lia|]. split; [exact C|].
    intros v. rewrite Tr. rewrite Z.add_0_r. reflexivity.
  - intros k a K L. rewrite (V k a K L).
    destruct (T 1 (i + Z.of_nat k)) as [C Tr]; [lia|]. split; [exact C|].
    intros v. apply Tr.
  - intros k1 k2 a1 a2 v N K1 K2 L1 L2.
    rewrite (U k1 a1 K1 L1), (U k2 a2 K2 L2).
    destruct (T 0 (i - 1 - Z.of_nat k1)) as [_ T1]; [lia|].
    destruct (T 0 (i - 1 - Z.of_nat k2)) as [_ T2]; [lia|].
    rewrite T1, T2. intros E.
    apply (f_equal (fun x => match x with
                             | Some (_, w) => trace w
                             | None => []
                             end)) in E.
    cbn in E. apply app_inv_head in E. injection E. lia.
  - intros k1 k2 a1 a2 v N K1 K2 L1 L2.
    rewrite (V k1 a1 K1 L1), (V k2 a2 K2 L2).
    destruct (T 1 (i + Z.of_nat k1)) as [_ T1]; [lia|].
    destruct (T 1 (i + Z.of_nat k2)) as [_ T2]; [lia|].
    rewrite T1, T2. intros E.
    apply (f_equal (fun x => match x with
                             | Some (_, w) => trace w
                             | None => []
                             end)) in E.
    cbn in E. apply app_inv_head in E. injection E. lia.
Qed.

End Claims.

(** * The widget at work on a small store

    The statements above at concrete inputs, and the inputs at which the
    code departs from the specification. *)

(** C1 on the demo widget: the user selects the second event. *)
Lemma selection_guard_single_notify_witness :
  programmatic_select Demo.w0 = false /\
  exists w',
    user_selects 1 Event [Row 1] Demo.w0 = Some (Ok tt, w') /\
    notifications w' = [Notify "active_select" Event ["e2"]] /\
    programmatic_select w' = false.
Proof.
  split; [reflexivity|].
  destruct (selection_guard_single_notify Demo.w0 0 eq_refl) as (_ & _ & _ & U).
  exact (U Event [Row 1]).
Defined.

(** C4 on the demo widget, with "move to trash" enabled beforehand. *)
Lemma enablement_untouched_unless_active_select_witness :
  "passive_select" <> "active_select" /\
  exists w',
    updated 1 "passive_select" Event ["e1"]
      (with_move_to_trash_action true Demo.w0) = Some (Ok tt, w') /\
    enablement w' = [true; false; false; false; false].
Proof.
  split; [discriminate|].
  apply (enablement_untouched_unless_active_select 0 "passive_select" Event
           ["e1"] (with_move_to_trash_action true Demo.w0)).
  discriminate.
Defined.

(** C2, counterexample. An [active_select] of the single event [e1]
    enables "create event", although the selected entity is no catalogue. *)
Lemma single_event_enables_create_event :
  exists w',
    updated 1 "active_select" Event ["e1"] Demo.w0 = Some (Ok tt, w') /\
    new_event_action w' = true /\
    ~ (new_event_action w' = true <->
       length ["e1"] = 1%nat /\ Event = Catalogue).
Proof.
  eexists. split; [vm_compute; reflexivity|]. split; [reflexivity|].
  intros [I _]. destruct (I eq_refl) as [_ E]. discriminate E.
Qed.

(** C2, as amended, on a selection of two events. *)
Lemma create_event_enabled_iff_single_witness :
  proxy_of Event Demo.w0 = Some tt /\
  exists w',
    updated 1 "active_select" Event ["e1"; "e2"] Demo.w0 = Some (Ok tt, w') /\
    (new_event_action w' = true <-> length ["e1"; "e2"] = 1%nat).
Proof.
  split; [reflexivity|].
  apply (create_event_enabled_iff_single 0 Event ["e1"; "e2"] Demo.w0 tt).
  reflexivity.
Defined.

(** C3, at the failing input. On the widget as constructed, an
    [active_select] of catalogue [A], which exists and is not in the
    trash, ends at line 68 with [AttributeError]: "move to trash",
    "delete" and "export" stay disabled. *)
Lemma catalogue_selection_leaves_commands_disabled :
  exists w',
    updated 1 "active_select" Catalogue ["A"] (init Demo.store0)
      = Some (Ok tt, w') /\
    kept_in Demo.store0 "A" = true /\
    enablement w' = [false; false; false; false; false] /\
    last (trace w') =
      Some (SlotError (AttributeError "catalogue_sort_filter_model")).
Proof.
  eexists. split; [vm_compute; reflexivity|].
  repeat split; vm_compute; reflexivity.
Qed.

(** C6, at the failing input. On the widget as constructed, a [changed]
    of catalogue [A] resets the catalogue model and then ends at line 68:
    the view is neither cleared nor re-pointed to [A], which is row 0 of
    the reloaded model; a [passive_select] of [A] does not touch the view
    either. *)
Lemma catalogue_selection_not_reapplied :
  (exists w',
     updated 1 "changed" Catalogue ["A"] (init Demo.store0) = Some (Ok tt, w') /\
     trace w' =
       [Notify "changed" Catalogue ["A"]; Emit catalogues_changed ["A"];
        ModelReset Catalogue;
        SlotError (AttributeError "catalogue_sort_filter_model")] /\
     index_from_uuid Catalogue (catalogue_model w') "A" = Row 0 /\
     catalogues_view w' = []) /\
  (exists w',
     updated 1 "passive_select" Catalogue ["A"]
       (with_catalogue_model ["A"; "T"] (init Demo.store0)) = Some (Ok tt, w') /\
     trace w' =
       [Notify "passive_select" Catalogue ["A"];
        SlotError (AttributeError "catalogue_sort_filter_model")] /\
     index_from_uuid Catalogue (catalogue_model w') "A" = Row 0 /\
     catalogues_view w' = []).
Proof.
  split; eexists; (split; [vm_compute; reflexivity|]);
    repeat split; vm_compute; reflexivity.
Qed.



(** C7 on a stack of twelve commands with the index at eleven. *)
Lemma history_menus_capped_witness :
  0 <= 11 <= count (undo_stack w_history) /\
  exists w',
    undo_redo_index_changed 11 w_history = Some (Ok tt, w') /\
    map text (undo_toolbar_button w') =
      ["c10"; "c9"; "c8"; "c7"; "c6"; "c5"; "c4"; "c3"; "c2"; "c1";
       "1 more undo actions"] /\
    map text (redo_toolbar_button w') = ["c11"].
Proof.
  assert (R : 0 <= 11 <= count (undo_stack w_history))
    by (change (0 <= 11 <= 12); lia).
  split; [exact R|].
  destruct (history_menus_capped w_history 11 R) as (w' & E & U & V & _).
  exists w'. split; [exact E|]. rewrite U, V. split; reflexivity.
Defined.

(** C9 on the same stack: the fourth undo entry jumps to index 7. *)
Lemma history_actions_jump_to_own_index_witness :
  0 <= 11 <= count (undo_stack w_history) /\
  exists w' a,
    undo_redo_index_changed 11 w_history = Some (Ok tt, w') /\
    undo_toolbar_button w' !! 3%nat = Some a /\
    text a = "c7" /\
    forall v, trigger a v = Some (Ok tt, with_trace (trace v ++ [SetIndex 7]) v).
Proof.
  assert (R : 0 <= 11 <= count (undo_stack w_history))
    by (change (0 <= 11 <= 12); lia).
  split; [exact R|].
  destruct (history_actions_jump_to_own_index w_history 11 R)
    as (w' & E & U & _).
  assert (E' := E). vm_compute in E'. injection E' as <-.
  eexists _, _. split; [exact E|]. split; [reflexivity|]. split; [reflexivity|].
  exact (proj2 (U 3%nat _ ltac:(reflexivity) eq_refl)).
Defined.


(** C10 on the same widget: event [e1] runs from 10 to 20, and
    [update_event_range] to start 15 and stop 12 is refused at the stop. *)
Lemma public_mutators_bypass_undo_stack_witness :
  store w_history !! "e1" = Some Demo.ev1 /\
  exists r w',
    update_event_range 1 "e1" 15 12 w_history = Some (r, w') /\
    undo_stack w' = undo_stack w_history /\
    r = Raise ValueError /\
    store w' !! "e1" = Some (mkEntity Event false 15 20 "ann" []) /\
    trace w' = [].
Proof.
  split; [reflexivity|].
  destruct (public_mutators_bypass_undo_stack 0 w_history) as (Up & _ & _).
  destruct (Up "e1" 15 12) as (r & w' & E & U & F).
  destruct (F Demo.ev1 eq_refl eq_refl) as (_ & Half & _).
  destruct Half as (R & S & T); [cbn; lia|lia|].
  exists r, w'. repeat split; try assumption.
  rewrite S. apply lookup_insert_eq.
Defined.

(** * More of the file *)

(** ** The order of [lessThan] *)

Lemma string_compare_refl (s : string) : String.compare s s = Eq.
Proof.
  induction s as [|c s IH]; [reflexivity|]. cbn.
  unfold Ascii.compare. rewrite N.compare_refl. exact IH.
Qed.

Lemma string_compare_lt_trans (a : string) : forall b c,
  String.compare a b = Lt -> String.compare b c = Lt ->
  String.compare a c = Lt.
Proof.
  induction a as [|x a IH]; intros [|y b] [|z c]; cbn; try discriminate;
    try reflexivity.
  unfold Ascii.compare.
  destruct (N.compare_spec (N_of_ascii x) (N_of_ascii y)) as [E1|L1|G1];
    destruct (N.compare_spec (N_of_ascii y) (N_of_ascii z)) as [E2|L2|G2];
    try discriminate; intros A B.
  - rewrite E1, E2, N.compare_refl. eapply IH; eassumption.
  - rewrite E1. apply N.compare_lt_iff in L2. rewrite L2. reflexivity.
  - rewrite <- E2. apply N.compare_lt_iff in L1. rewrite L1. reflexivity.
  - assert (L : (N_of_ascii x < N_of_ascii z)%N) by lia.
    apply N.compare_lt_iff in L. rewrite L. reflexivity.
Qed.

Lemma ltb_irrefl (s : string) : String.ltb s s = false.
Proof. unfold String.ltb. rewrite string_compare_refl. reflexivity. Qed.

Lemma ltb_lt (a b : string) : String.ltb a b = true <-> String.compare a b = Lt.
Proof. unfold String.ltb. destruct (String.compare a b); split; congruence. Qed.

Lemma ltb_trans (a b c : string) :
  String.ltb a b = true -> String.ltb b c = true -> String.ltb a c = true.
Proof. rewrite !ltb_lt. apply string_compare_lt_trans. Qed.

Lemma ltb_flip (a b : string) :
  String.ltb a b = false -> a = b \/ String.ltb b a = true.
Proof.
  unfold String.ltb. rewrite (String.compare_antisym b a).
  destruct (String.compare a b) eqn:E; cbn; intros; try discriminate.
  - left. apply String.compare_eq_iff. exact E.
  - right. reflexivity.
Qed.

Lemma ltb_asym (a b : string) : String.ltb a b = true -> String.ltb b a = false.
Proof.
  unfold String.ltb. rewrite (String.compare_antisym b a).
  destruct (String.compare a b); cbn; congruence.
Qed.

Lemma not_ltb_trans (a b c : string) :
  String.ltb a b = false -> String.ltb b c = false -> String.ltb a c = false.
Proof.
  intros [->|A]%ltb_flip [->|B]%ltb_flip.
  - apply ltb_irrefl.
  - apply ltb_asym. exact B.
  - apply ltb_asym. exact A.
  - apply ltb_asym. eapply ltb_trans; eassumption.
Qed.

Lemma lessThan_trash_left (x : string) : lessThan "Trash" x = false.
Proof. reflexivity. Qed.

Lemma lessThan_true (a b : string) :
  lessThan a b = true <->
  a <> "Trash" /\ (b = "Trash" \/ String.ltb (lower a) (lower b) = true).
Proof.
  unfold lessThan.
  destruct (String.eqb_spec a "Trash") as [->|Na];
    [split; [discriminate | intros [N _]; contradiction]|].
  destruct (String.eqb_spec b "Trash") as [->|Nb].
  - split; [intros _; split; [exact Na | left; reflexivity] | reflexivity].
  - split; [intros L; split; [exact Na | right; exact L]|].
    intros [_ [E|L]]; [contradiction | exact L].
Qed.

(** X1. [lessThan] is a strict order: nothing is less than itself, it is
    transitive, and two rows are never each less than the other. *)
Theorem lessThan_strict_order :
  (forall a, lessThan a a = false) /\
  (forall a b c,
     lessThan a b = true -> lessThan b c = true -> lessThan a c = true) /\
  (forall a b, lessThan a b = true -> lessThan b a = false).
Proof.
  split; [|split].
  - intros a. unfold lessThan. destruct (String.eqb a "Trash"); [reflexivity|].
    apply ltb_irrefl.
  - intros a b c [Na A]%lessThan_true [Nb B]%lessThan_true.
    apply lessThan_true. split; [exact Na|].
    destruct B as [->|B]; [left; reflexivity|]. right.
    destruct A as [A|A]; [contradiction|]. eapply ltb_trans; eassumption.
  - intros a b [Na A]%lessThan_true.
    destruct (lessThan b a) eqn:E; [|reflexivity].
    apply lessThan_true in E as [Nb B].
    destruct A as [A|A]; [contradiction|].
    destruct B as [B|B]; [contradiction|].
    apply ltb_asym in A. congruence.
Qed.

(** X2. Being incomparable under [lessThan] is transitive, so the order
    is one a sort can use; and two rows other than the trash are
    incomparable exactly when their names agree up to case. *)
Theorem lessThan_weak_order :
  (forall a b c,
     lessThan a b = false -> lessThan b c = false -> lessThan a c = false) /\
  (forall a b,
     a <> "Trash" -> b <> "Trash" ->
     (lessThan a b = false /\ lessThan b a = false <-> lower a = lower b)).
Proof.
  split.
  - intros a b c A B. unfold lessThan in *.
    destruct (String.eqb a "Trash"); [reflexivity|].
    destruct (String.eqb b "Trash"); [discriminate A|].
    destruct (String.eqb c "Trash"); [discriminate B|].
    eapply not_ltb_trans; eassumption.
  - intros a b Na%String.eqb_neq Nb%String.eqb_neq. unfold lessThan.
    rewrite Na, Nb. split.
    + intros [[E|A]%ltb_flip B]; [exact E | congruence].
    + intros ->. split; apply ltb_irrefl.
Qed.

(** X3. In a list of names sorted in ascending order by [lessThan], that
    is, with no name less than one before it, every name that comes after
    a ["Trash"] is ["Trash"] too: the trash is at the bottom. *)
Theorem trash_sorts_last (names : list string) (i j : nat) (x : string) :
  StronglySorted (fun a b => lessThan b a = false) names ->
  (i < j)%nat ->
  names !! i = Some "Trash" ->
  names !! j = Some x ->
  x = "Trash".
Proof.
  intros S. revert i j. induction S as [|a l S IH F]; intros i j L I J.
  - rewrite lookup_nil in I. discriminate.
  - destruct j as [|j]; [lia|]. destruct i as [|i]; cbn in I, J.
    + injection I as ->. apply list_elem_of_lookup_2 in J.
      rewrite List.Forall_forall in F.
      apply list_elem_of_In in J. specialize (F _ J).
      unfold lessThan in F.
      destruct (String.eqb_spec x "Trash") as [E|N]; [exact E|discriminate F].
    + apply (IH i j); [lia|assumption..].
Qed.

(** ** The file name of an export *)

Lemma string_app_inv_head (a x y : string) :
  (a ++ x = a ++ y)%string -> x = y.
Proof.
  induction a as [|c a IH]; cbn; [auto|]. intros [= E]. apply IH. exact E.
Qed.

(** X4. When [splitext] splits the chosen name into two parts that make
    up the name, the name of the file written ends in [.json], and it is
    the chosen name itself exactly when the extension of the chosen name
    is [.json]. *)
Theorem export_filename_json (split : string -> string * string)
  (filename : string) :
  (fst (split filename) ++ snd (split filename))%string = filename ->
  (exists stem, export_filename split filename = (stem ++ ".json")%string) /\
  (export_filename split filename = filename <->
   snd (split filename) = ".json").
Proof.
  intros C. unfold export_filename.
  destruct (String.eqb_spec (snd (split filename)) ".json") as [E|N]; cbn.
  - split; [|tauto]. exists (fst (split filename)). rewrite <- E. auto.
  - split; [eauto|]. split; [|contradiction].
    intros A. rewrite <- C in A at 2. apply string_app_inv_head in A.
    congruence.
Qed.

(** ** Export and import *)

Section Files.
Context `{Collaborators} `{Environment}.

Lemma get_entities_eq uuids w :
  get_entities uuids w =
  match first_stale (store w) uuids with
  | Some u => Some (Raise (EntityNotFound u), w)
  | None => Some (Ok (omap (fun u => store w !! u) uuids), w)
  end.
Proof.
  induction uuids as [|u rest IH]; [reflexivity|].
  cbn [get_entities first_stale]. unfold bind at 1, get_entity_from_uuid_safe.
  destruct (store w !! u) as [e|] eqn:L; [|reflexivity].
  unfold bind. rewrite IH. destruct (first_stale (store w) rest); [reflexivity|].
  cbn. rewrite L. reflexivity.
Qed.

(** X5. The export action never raises and never changes the widget; of
    the file system it changes at most the file it names, and when the
    file dialog is cancelled (empty name) it changes nothing and shows no
    message. *)
Theorem export_to_file_contained (filename : string) (catalogues : list UUID)
  (fs : gmap string string) (w : TSCatGUI) :
  exists fs' msg,
    export_to_file filename catalogues fs w = Some (Ok (fs', msg), w) /\
    (forall name, name <> export_filename splitext filename ->
                  fs' !! name = fs !! name) /\
    (filename = EmptyString -> fs' = fs /\ msg = None).
Proof.
  unfold export_to_file.
  destruct (String.eqb_spec filename EmptyString) as [E|N].
  { eexists _, _. split; [reflexivity|]. auto. }
  set (target := export_filename splitext filename).
  destruct (open_for_writing target).
  { eexists _, _. split; [reflexivity|]. split; [auto|contradiction]. }
  unfold try_except. rewrite get_entities_eq.
  destruct (first_stale (store w) catalogues).
  { eexists _, _. split; [reflexivity|]. split; [|contradiction].
    intros name D. apply lookup_insert_ne. congruence. }
  destruct (export_json _).
  - eexists _, _. split; [reflexivity|]. split; [|contradiction].
    intros name D. rewrite !lookup_insert_ne by congruence. reflexivity.
  - eexists _, _. split; [reflexivity|]. split; [|contradiction].
    intros name D. apply lookup_insert_ne. congruence.
Qed.

(** X6. Once the file could be opened for writing, it holds the exported
    text when every selected catalogue resolves and [export_json]
    returns, and an information box is shown; when a selected UUID is
    stale or [export_json] raises, the file is left empty, whatever it
    held before, and a critical box is shown. *)
Theorem export_to_file_outcome (filename : string) (catalogues : list UUID)
  (fs : gmap string string) (w : TSCatGUI) :
  filename <> EmptyString ->
  open_for_writing (export_filename splitext filename) = None ->
  exists fs' msg,
    export_to_file filename catalogues fs w = Some (Ok (fs', Some msg), w) /\
    (forall json,
       first_stale (store w) catalogues = None ->
       export_json (omap (fun u => store w !! u) catalogues) = Ok json ->
       fs' !! export_filename splitext filename = Some json /\
       msg = information "Catalogue export"
               "The selected catalogues have been successfully exported") /\
    (is_Some (first_stale (store w) catalogues) \/
     (exists e, export_json (omap (fun u => store w !! u) catalogues) = Raise e) ->
     fs' !! export_filename splitext filename = Some EmptyString /\
     exists text, msg = critical "Catalogue export" text).
Proof.
  intros N O. unfold export_to_file.
  destruct (String.eqb_spec filename EmptyString) as [E|_]; [contradiction|].
  set (target := export_filename splitext filename) in *. rewrite O.
  unfold try_except. rewrite get_entities_eq.
  destruct (first_stale (store w) catalogues) as [u|].
  { eexists _, _. split; [reflexivity|]. split; [intros json [=]|].
    intros _. split; [apply lookup_insert_eq | eauto]. }
  destruct (export_json _) as [json|e].
  - eexists _, _. split; [reflexivity|]. split.
    + intros json' _ [= <-]. split; [apply lookup_insert_eq | reflexivity].
    + intros [[u [=]]|[e [=]]].
  - eexists _, _. split; [reflexivity|]. split; [intros json _ [=]|].
    intros _. split; [apply lookup_insert_eq | eauto].
Qed.

(** X7. The import action never raises when the push returns. When the
    file cannot be read or its content is rejected, the widget is left as
    it was, the command is not pushed and a critical box is shown; when
    the push is reached, the widget is as the push left it, and a box is
    shown exactly when the push raised. *)
Theorem import_from_file_contained
  (push_import : string -> ImportDict -> M unit)
  (filename : string) (fs : gmap string string) (w : TSCatGUI) :
  filename <> EmptyString ->
  (forall d, push_import filename d w <> None) ->
  exists msg w',
    import_from_file push_import filename fs w = Some (Ok msg, w') /\
    ((forall data d, fs !! filename = Some data ->
                     canonicalize_json_import data <> Ok d) ->
     w' = w /\ exists text, msg = Some (critical "Catalogue import" text)) /\
    (forall data d, fs !! filename = Some data ->
       canonicalize_json_import data = Ok d ->
       exists r, push_import filename d w = Some (r, w') /\
                 (msg = None <-> r = Ok tt)).
Proof.
  intros N T. unfold import_from_file.
  destruct (String.eqb_spec filename EmptyString) as [E|_]; [contradiction|].
  destruct (fs !! filename) as [data|].
  - destruct (canonicalize_json_import data) as [d|e] eqn:C.
    + unfold try_except. specialize (T d).
      destruct (push_import filename d w) as [[[[]|e] w']|] eqn:P;
        [| |contradiction].
      * eexists _, _. split; [reflexivity|]. split.
        -- intros A. exfalso. exact (A data d eq_refl C).
        -- intros data' d' [= <-] C'. rewrite C in C'. injection C' as <-.
           exists (Ok tt). rewrite P. tauto.
      * eexists _, _. split; [reflexivity|]. split.
        -- intros A. exfalso. exact (A data d eq_refl C).
        -- intros data' d' [= <-] C'. rewrite C in C'. injection C' as <-.
           exists (Raise e). rewrite P. split; [reflexivity|].
           split; discriminate.
    + eexists _, _. split; [reflexivity|]. split; [eauto|].
      intros data' d [= <-] C'. congruence.
  - eexists _, _. split; [reflexivity|]. split; [eauto|]. intros data d [=].
Qed.

End Files.

(** ** What every input preserves *)

Section Preservation.
Context `{Collaborators}.

Lemma guard_after action k uuids w :
  programmatic_select (settle (after_state_changed action k uuids w)) =
  if py_in action handled_verbs then
    match proxy_of k w with
    | Some _ => false
    | None => programmatic_select w
    end
  else programmatic_select w.
Proof.
  unfold after_state_changed, enabled_for, before_sync.
  destruct (py_in action handled_verbs); [|reflexivity].
  destruct (proxy_of k w);
    [destruct (String.eqb action "active_select");
     [destruct uuids; [|cbv zeta; destruct (first_stale _ _)]|]|];
    destruct (negb _), k; reflexivity.
Qed.

Lemma flags_after action k uuids w :
  enablement (settle (after_state_changed action k uuids w)) =
  if py_in action handled_verbs then
    match proxy_of k w with
    | Some _ =>
        if String.eqb action "active_select" then flags_for (store w) uuids
        else enablement w
    | None => enablement w
    end
  else enablement w.
Proof.
  unfold after_state_changed, enabled_for, flags_for.
  destruct (py_in action handled_verbs); [|reflexivity].
  destruct (proxy_of k w).
  - rewrite store_synced, store_before_sync.
    destruct (String.eqb action "active_select").
    + destruct uuids; [reflexivity|]. cbv zeta.
      destruct (first_stale _ _); reflexivity.
    + unfold before_sync. destruct (negb _), k; reflexivity.
  - unfold before_sync. destruct (negb _), k; reflexivity.
Qed.

Lemma proxy_after action k uuids w :
  catalogue_sort_filter_model (settle (after_state_changed action k uuids w)) =
  catalogue_sort_filter_model w.
Proof.
  unfold after_state_changed, enabled_for, before_sync.
  destruct (py_in action handled_verbs); [|reflexivity].
  destruct (proxy_of k w);
    [destruct (String.eqb action "active_select");
     [destruct uuids; [|cbv zeta; destruct (first_stale _ _)]|]|];
    destruct (negb _), k; reflexivity.
Qed.

(** Every entity that resolves is either in the trash or not. *)
Lemma kept_or_removed (s : gmap string Entity) u rest :
  first_stale s (u :: rest) = None ->
  existsb (kept_in s) (u :: rest) || existsb (removed_in s) (u :: rest) = true.
Proof.
  cbn. unfold kept_in at 1, removed_in at 1.
  destruct (s !! u) as [e|]; [|discriminate]. intros _.
  destruct (is_removed e); cbn; rewrite ?orb_true_r; reflexivity.
Qed.

Lemma idle_coherent_same w w' :
  programmatic_select w' = false ->
  enablement w' = enablement w ->
  idle_coherent w -> idle_coherent w'.
Proof.
  unfold idle_coherent, enablement. intros G [= -> -> -> _ ->] (_ & A & B).
  auto.
Qed.

Lemma idle_coherent_flags_for w' s uuids :
  programmatic_select w' = false ->
  enablement w' = flags_for s uuids ->
  idle_coherent w'.
Proof.
  unfold idle_coherent, enablement, flags_for. intros G E.
  destruct uuids as [|u rest]; [injection E as -> -> -> _ ->; auto|].
  cbv zeta in E. destruct (first_stale s (u :: rest)) eqn:F;
    injection E as -> -> -> _ ->; [auto|].
  pose proof (kept_or_removed _ _ _ F) as K. cbn [existsb] in K.
  rewrite K. auto.
Qed.

Lemma updated_keeps_idle action k uuids w :
  idle_coherent w ->
  idle_coherent (settle (after_state_changed action k uuids
                           (announced action k uuids w))).
Proof.
  intros I. pose proof (guard_after action k uuids (announced action k uuids w)) as G.
  pose proof (flags_after action k uuids (announced action k uuids w)) as F.
  rewrite proxy_of_announced in G, F.
  change (programmatic_select (announced action k uuids w))
    with (programmatic_select w) in G.
  change (enablement (announced action k uuids w)) with (enablement w) in F.
  assert (G0 : programmatic_select w = false) by apply I.
  destruct (py_in action handled_verbs);
    [destruct (proxy_of k w);
     [destruct (String.eqb action "active_select")|]|].
  - eapply idle_coherent_flags_for; eassumption.
  - eapply idle_coherent_same; eassumption.
  - eapply idle_coherent_same; [congruence | eassumption..].
  - eapply idle_coherent_same; [congruence | eassumption..].
Qed.

Lemma updated_keeps_catalogue_view action k uuids w :
  catalogue_view_untouched w ->
  catalogue_view_untouched (settle (after_state_changed action k uuids
                                      (announced action k uuids w))).
Proof.
  intros [P T]. split; [rewrite proxy_after; exact P|].
  rewrite handler_trace. unfold announced at 1. cbn [trace with_trace].
  apply Forall_app. split; [apply Forall_app; split; [exact T|]|].
  - constructor; [reflexivity|]. unfold emitted.
    destruct (String.eqb _ _); [repeat constructor|].
    destruct (String.eqb _ _); repeat constructor.
  - unfold handler_ops, reset_ops, lookup_error.
    rewrite proxy_of_announced.
    destruct (py_in action handled_verbs); [|constructor].
    destruct k; cbn [proxy_of].
    + rewrite P. apply Forall_app. split;
        [destruct (negb (py_in action select_verbs))|]; repeat constructor.
    + apply Forall_app. split;
        [destruct (negb (py_in action select_verbs)); repeat constructor|].
      constructor; [reflexivity|]. apply Forall_app. split.
      * apply List.Forall_map, Forall_true. reflexivity.
      * destruct (String.eqb _ _); [|constructor].
        destruct (first_stale _ _); repeat constructor.
Qed.

Lemma same_core_refl w : same_core w w.
Proof.
  repeat split. exists []. split; [symmetry; apply app_nil_r | constructor].
Qed.

Lemma same_core_keeps w w' :
  same_core w w' ->
  (idle_coherent w -> idle_coherent w') /\
  (catalogue_view_untouched w -> catalogue_view_untouched w').
Proof.
  intros (G & P & F & delta & T & D). split.
  - intros I. eapply idle_coherent_same; [|exact F|exact I].
    rewrite G. apply I.
  - intros [P0 T0]. split; [congruence|]. rewrite T. apply Forall_app. auto.
Qed.

(** A notification always returns and keeps both invariants. *)
Lemma updated_keeps d action k uuids w :
  exists w',
    updated (S d) action k uuids w = Some (Ok tt, w') /\
    (idle_coherent w -> idle_coherent w') /\
    (catalogue_view_untouched w -> catalogue_view_untouched w').
Proof.
  eexists. split; [apply updated_eq|]. split.
  - apply updated_keeps_idle.
  - apply updated_keeps_catalogue_view.
Qed.

Lemma add_history_actions_state idxs inc : forall menu w,
  exists r, add_history_actions idxs inc menu w = Some (r, w).
Proof.
  induction idxs as [|j idxs IH]; intros menu w; cbn [add_history_actions].
  - eexists. reflexivity.
  - rewrite bind_gets. destruct (command (undo_stack w) j); [apply IH|].
    eexists. reflexivity.
Qed.

Lemma create_menu_core idxs b inc more text w :
  exists r w',
    create_undo_redo_action_menu_on_toolbutton idxs b inc more text w
      = Some (r, w') /\
    same_core w w' /\ undo_stack w' = undo_stack w.
Proof.
  unfold create_undo_redo_action_menu_on_toolbutton.
  destruct (add_history_actions_state idxs inc [] w) as [[menu|e] E].
  - erewrite bind_returns by exact E. destruct b; cbn [setMenu];
      eexists _, _; (split; [reflexivity|]); split; try reflexivity;
      repeat split; exists []; cbn; rewrite app_nil_r; auto.
  - erewrite bind_raises by exact E. eexists _, _. split; [reflexivity|].
    split; [apply same_core_refl | reflexivity].
Qed.

Lemma same_core_trans w1 w2 w3 :
  same_core w1 w2 -> same_core w2 w3 -> same_core w1 w3.
Proof.
  intros (G1 & P1 & F1 & d1 & T1 & D1) (G2 & P2 & F2 & d2 & T2 & D2).
  repeat split; try congruence. exists (d1 ++ d2). split.
  - rewrite T2, T1, <- app_assoc. reflexivity.
  - apply Forall_app. auto.
Qed.

Lemma index_changed_core i w :
  exists r w', undo_redo_index_changed i w = Some (r, w') /\ same_core w w'.
Proof.
  unfold undo_redo_index_changed. cbv zeta.
  match goal with
  | |- context [bind (create_undo_redo_action_menu_on_toolbutton ?a ?b ?c ?e ?f)] =>
      destruct (create_menu_core a b c e f w) as ([[]|e1] & w1 & E1 & C1 & U1)
  end.
  - erewrite bind_returns by exact E1. rewrite bind_gets.
    match goal with
    | |- context [create_undo_redo_action_menu_on_toolbutton ?a ?b ?c ?e ?f w1] =>
        destruct (create_menu_core a b c e f w1) as (r2 & w2 & E2 & C2 & _)
    end.
    exists r2, w2. split; [exact E2|]. eapply same_core_trans; eassumption.
  - erewrite bind_raises by exact E1. eauto.
Qed.

Lemma same_core_simple w w' :
  programmatic_select w' = programmatic_select w ->
  catalogue_sort_filter_model w' = catalogue_sort_filter_model w ->
  enablement w' = enablement w ->
  trace w' = trace w ->
  same_core w w'.
Proof.
  intros G P F T. repeat split; try assumption. exists [].
  rewrite app_nil_r. auto.
Qed.

Lemma same_core_reloaded k w : same_core w (reloaded k w).
Proof.
  repeat split; try (destruct k; reflexivity).
  exists [ModelReset k]. split; [destruct k; reflexivity|].
  repeat constructor.
Qed.

Lemma create_event_keeps d s e a cu eu w :
  exists r w',
    create_event (S d) s e a cu eu w = Some (r, w') /\
    (idle_coherent w -> idle_coherent w') /\
    (catalogue_view_untouched w -> catalogue_view_untouched w').
Proof.
  unfold create_event, get_entity_from_uuid_safe.
  destruct (store w !! cu) as [c|] eqn:L.
  - erewrite bind_returns by (rewrite L; reflexivity).
    destruct (entity_type c).
    + rewrite bind_lift.
      destruct (session_create_event s e a) as [event|x];
        [|eexists _, _; split; [reflexivity|]; auto].
      rewrite !bind_modify.
      match goal with |- context [bind _ _ ?v] => set (w1 := v) end.
      destruct (updated_keeps d "inserted" Event [eu] w1) as (w' & E & K1 & K2).
      erewrite bind_returns by exact E.
      eexists _, _. split; [reflexivity|].
      destruct (same_core_keeps w w1 (same_core_simple _ _ eq_refl eq_refl
                                        eq_refl eq_refl)). split; auto.
    + eexists _, _. split; [reflexivity|]. auto.
  - erewrite bind_raises by (rewrite L; reflexivity). eauto.
Qed.

(** Every input is handled to its end at nesting depth one, and keeps
    both invariants. *)
Lemma handle_keeps d (i : Input) w :
  exists r w',
    handle (S d) i w = Some (r, w') /\
    (idle_coherent w -> idle_coherent w') /\
    (catalogue_view_untouched w -> catalogue_view_untouched w').
Proof.
  destruct i as [action k uuids|k sel|uuid s e|s e a cu eu|uuid|i|cs| |a|st];
    cbn [handle].
  - destruct (updated_keeps d action k uuids w) as (w' & E & K). eauto.
  - unfold user_selects. rewrite bind_modify. unfold deliver.
    rewrite selectionChanged_guard.
    set (w1 := with_view k sel w).
    assert (C1 : same_core w w1)
      by (apply same_core_simple; destruct k; reflexivity).
    destruct (programmatic_select w1).
    + eexists _, _. split; [reflexivity|]. apply same_core_keeps, C1.
    + destruct (updated_keeps d "active_select" k (selected_uuids k w1) w1)
        as (w' & E & K1 & K2). rewrite E.
      eexists _, _. split; [reflexivity|].
      destruct (same_core_keeps _ _ C1). split; auto.
  - destruct (store w !! uuid) as [ev|] eqn:L.
    + rewrite (update_event_range_eq _ _ _ _ _ _ L).
      destruct (set_start s ev) as [ev1|x];
        [|eexists _, _; split; [reflexivity|]; auto].
      destruct (set_stop e ev1) as [ev2|x].
      * match goal with |- context [updated _ _ _ _ ?v] => set (w1 := v) end.
        destruct (updated_keeps d "changed" Event [uuid] w1)
          as (w' & E & K1 & K2).
        exists (Ok tt), w'. split; [exact E|].
        destruct (same_core_keeps w w1 (same_core_simple _ _ eq_refl eq_refl
                                          eq_refl eq_refl)). split; auto.
      * eexists _, _. split; [reflexivity|].
        apply same_core_keeps, same_core_simple; reflexivity.
    + unfold update_event_range.
      erewrite bind_raises by (apply get_entity_missing, L). eauto.
  - destruct (create_event_keeps d s e a cu eu w) as ([ev|x] & w' & E & K).
    + erewrite bind_returns by exact E. eexists _, _. split; [reflexivity|].
      exact K.
    + erewrite bind_raises by exact E. eauto.
  - unfold move_to_trash, get_entity_from_uuid_safe.
    destruct (store w !! uuid) as [x|] eqn:L.
    + erewrite bind_returns by (rewrite L; reflexivity). rewrite !bind_modify.
      match goal with |- context [updated _ _ _ _ ?v] => set (w1 := v) end.
      destruct (updated_keeps d "moved" (entity_type x) [uuid] w1)
        as (w' & E & K1 & K2).
      exists (Ok tt), w'. split; [exact E|].
      destruct (same_core_keeps w w1 (same_core_simple _ _ eq_refl eq_refl
                                        eq_refl eq_refl)). split; auto.
    + erewrite bind_raises by (rewrite L; reflexivity). eauto.
  - destruct (index_changed_core i w) as (r & w' & E & C).
    exists r, w'. split; [exact E|]. apply same_core_keeps, C.
  - unfold refresh_current_selection.
    erewrite bind_returns by apply model_reset_eq.
    erewrite bind_returns by apply model_reset_eq.
    set (w1 := reloaded Event (reloaded Catalogue w)).
    assert (C1 : same_core w w1)
      by (eapply same_core_trans; apply same_core_reloaded).
    destruct (same_core_keeps _ _ C1) as [A1 B1].
    destruct (sel_type cs).
    + erewrite bind_returns by reflexivity.
      destruct (updated_keeps d "active_select" Catalogue (selected cs) w1)
        as (w' & E & K1 & K2).
      exists (Ok tt), w'. split; [exact E|]. split; auto.
    + destruct (updated_keeps d "passive_select" Catalogue
                  (selected_catalogues cs) w1) as (w2 & E2 & K1 & K2).
      erewrite bind_returns by exact E2.
      destruct (updated_keeps d "active_select" Event (selected cs) w2)
        as (w' & E & K3 & K4).
      exists (Ok tt), w'. split; [exact E|]. split; auto.
  - eexists _, _. split; [reflexivity|].
    apply same_core_keeps, same_core_simple; reflexivity.
  - unfold trigger. destruct (triggered a) as [f|];
      [destruct (isEnabled a)|]; cbn [when].
    + eexists _, _. split; [reflexivity|]. apply same_core_keeps.
      repeat split. exists [SetIndex (_i f + inc f)]. split; [reflexivity|].
      repeat constructor.
    + eexists _, _. split; [reflexivity|].
      apply same_core_keeps, same_core_refl.
    + eexists _, _. split; [reflexivity|].
      apply same_core_keeps, same_core_refl.
  - eexists _, _. split; [reflexivity|].
    apply same_core_keeps, same_core_simple; reflexivity.
Qed.

Lemma run_keeps d (inputs : list Input) : forall w,
  exists w',
    run (S d) inputs w = Some w' /\
    (idle_coherent w -> idle_coherent w') /\
    (catalogue_view_untouched w -> catalogue_view_untouched w').
Proof.
  induction inputs as [|i rest IH]; intros w; cbn [run].
  - exists w. auto.
  - destruct (handle_keeps d i w) as (r & w1 & E & K1 & K2). rewrite E.
    destruct (IH w1) as (w' & E' & K3 & K4). exists w'. auto.
Qed.

(** X8. From a widget whose guard is unset and whose "delete" and
    "export" are enabled together, exactly when "move to trash" or
    "restore" is, every sequence of inputs is handled to its end, no
    handler nesting deeper than one notification, and leaves such a widget
    again. *)
Theorem inputs_keep_widget_coherent
  (d : nat) (inputs : list Input) (w : TSCatGUI) :
  idle_coherent w ->
  exists w',
    run (S d) inputs w = Some w' /\
    programmatic_select w' = false /\
    delete_action w' = export_action w' /\
    delete_action w' = move_to_trash_action w' || restore_from_trash_action w'.
Proof.
  intros I. destruct (run_keeps d inputs w) as (w' & E & K & _).
  exists w'. split; [exact E|]. apply K, I.
Qed.

(** X9. The widget as constructed has no [catalogue_sort_filter_model],
    no input gives it one, and so no sequence of inputs ever makes the
    widget clear or select in the catalogue view. *)
Theorem catalogue_view_never_synchronised
  (d : nat) (inputs : list Input) (s : gmap string Entity) :
  exists w',
    run (S d) inputs (init s) = Some w' /\
    catalogue_sort_filter_model w' = None /\
    Forall (fun o => is_catalogue_view_op o = false) (trace w').
Proof.
  destruct (run_keeps d inputs (init s)) as (w' & E & _ & K).
  exists w'. split; [exact E|]. apply K. split; [reflexivity|constructor].
Qed.

End Preservation.

(** ** More on the handler *)

Section HandlerMore.
Context `{Collaborators}.

(** X10. A notification whose verb is none of the six the handler knows
    is recorded and has no other effect: no signal, no reset, no change of
    a selection, of a flag or of the guard. *)
Theorem unknown_verb_only_announced
  (d : nat) (action : string) (k : Kind) (uuids : list UUID) (w : TSCatGUI) :
  py_in action handled_verbs = false ->
  updated (S d) action k uuids w =
  Some (Ok tt, with_trace (trace w ++ [Notify action k uuids]) w).
Proof.
  intros U. rewrite updated_eq. unfold after_state_changed. rewrite U.
  cbn [settle]. unfold announced, emitted.
  rewrite (unhandled_not_active _ U).
  destruct (String.eqb_spec action "changed") as [->|_]; [discriminate U|].
  reflexivity.
Qed.

Lemma view_after action k uuids w p :
  py_in action handled_verbs = true ->
  proxy_of k w = Some p ->
  view k (settle (after_state_changed action k uuids w)) =
  fold_left selecting (sync_indexes p k (before_sync action k w) uuids) [].
Proof.
  intros Hd P. unfold after_state_changed. rewrite Hd, P.
  generalize (sync_indexes p k (before_sync action k w) uuids) as idxs.
  intros idxs. destruct (String.eqb action "active_select").
  - unfold enabled_for. destruct uuids as [|u rest].
    + unfold before_sync. destruct (negb _), k; reflexivity.
    + cbv zeta. destruct (first_stale _ _); unfold before_sync;
        destruct (negb _), k; reflexivity.
  - unfold before_sync. destruct (negb _), k; reflexivity.
Qed.

Lemma selecting_spec (sel : list QModelIndex) (i : QModelIndex) :
  NoDup sel -> Forall (fun j => isValid j = true) sel ->
  NoDup (selecting sel i) /\
  Forall (fun j => isValid j = true) (selecting sel i) /\
  forall j, j ∈ selecting sel i <-> j ∈ sel \/ (j = i /\ isValid i = true).
Proof.
  intros N V. unfold selecting.
  destruct (isValid i) eqn:Vi; cbn [andb].
  - destruct (bool_decide (i ∈ sel)) eqn:B; cbn [negb].
    + apply bool_decide_eq_true in B. repeat split; try assumption.
      * auto.
      * intros [A|[-> _]]; assumption.
    + apply bool_decide_eq_false in B. split; [|split].
      * apply NoDup_app. repeat split; [assumption| |apply NoDup_singleton].
        intros x X ->%list_elem_of_singleton. contradiction.
      * apply Forall_app. split; [assumption|]. repeat constructor. exact Vi.
      * intros j. rewrite elem_of_app, list_elem_of_singleton. tauto.
  - repeat split; try assumption; [auto|]. intros [A|[_ [=]]]. exact A.
Qed.

Lemma selecting_fold (idxs : list QModelIndex) : forall sel,
  NoDup sel -> Forall (fun j => isValid j = true) sel ->
  NoDup (fold_left selecting idxs sel) /\
  forall j, j ∈ fold_left selecting idxs sel <->
            j ∈ sel \/ (j ∈ idxs /\ isValid j = true).
Proof.
  induction idxs as [|i idxs IH]; intros sel N V; cbn [fold_left].
  - split; [assumption|]. intros j. rewrite elem_of_nil. tauto.
  - destruct (selecting_spec sel i N V) as (N1 & V1 & M1).
    destruct (IH _ N1 V1) as (N2 & M2). split; [assumption|].
    intros j. rewrite M2, M1, elem_of_cons. split.
    + intros [[A|[-> Vi]]|[A Vj]]; auto.
    + intros [A|[[->|A] Vj]]; auto.
Qed.

(** X11. After a handled notification whose branch finds its proxy, the
    selection of the view holds each valid view index of the given UUIDs
    once and nothing else: a UUID given twice is selected once, and a
    UUID without a row in the model (an invalid index) is left out. *)
Theorem selection_is_the_valid_indexes
  (d : nat) (action : string) (k : Kind) (uuids : list UUID) (w : TSCatGUI)
  (p : Proxy) :
  py_in action handled_verbs = true ->
  proxy_of k w = Some p ->
  exists w',
    updated (S d) action k uuids w = Some (Ok tt, w') /\
    NoDup (view k w') /\
    forall i, i ∈ view k w' <->
              i ∈ sync_indexes p k (before_sync action k w) uuids /\
              isValid i = true.
Proof.
  intros Hd P. eexists. split; [apply updated_eq|].
  rewrite (view_after action k uuids _ p Hd)
    by (rewrite proxy_of_announced; exact P).
  rewrite sync_indexes_announced.
  destruct (selecting_fold (sync_indexes p k (before_sync action k w) uuids) [])
    as [N M]; [constructor..|].
  split; [exact N|]. intros i. rewrite M, elem_of_nil. tauto.
Qed.

Lemma selecting_fold_fresh (l : list QModelIndex) : forall sel,
  NoDup (sel ++ l) -> Forall (fun j => isValid j = true) l ->
  fold_left selecting l sel = sel ++ l.
Proof.
  induction l as [|i l IH]; intros sel N V; cbn [fold_left].
  - symmetry. apply app_nil_r.
  - apply Forall_cons in V as [Vi V].
    assert (Fresh : i ∉ sel).
    { apply NoDup_app in N as (_ & D & _). intros A.
      apply (D i A). left. }
    unfold selecting at 2. rewrite Vi, bool_decide_eq_false_2 by exact Fresh.
    cbn [andb negb]. rewrite IH; [rewrite <- app_assoc; reflexivity| |exact V].
    rewrite <- app_assoc. exact N.
Qed.

(** X12. When the model and the proxy take each selected index to its
    UUID and back to the same index, a selection that the user makes
    (distinct valid indexes, guard unset) is still the selection of the
    view after the notification it causes has re-applied it. *)
Theorem user_selection_survives_echo
  (d : nat) (k : Kind) (sel : list QModelIndex) (w : TSCatGUI) (p : Proxy) :
  programmatic_select w = false ->
  proxy_of k w = Some p ->
  NoDup sel ->
  Forall (fun i => isValid i = true) sel ->
  (forall i, i ∈ sel ->
     mapFromSource p (model k w)
       (index_from_uuid k (model k w) (UUIDRole k (model k w) i)) = i) ->
  exists w', user_selects (S d) k sel w = Some (Ok tt, w') /\ view k w' = sel.
Proof.
  intros G P N V R. unfold user_selects. rewrite bind_modify.
  set (w1 := with_view k sel w).
  assert (G1 : programmatic_select w1 = false) by (destruct k; exact G).
  assert (P1 : proxy_of k w1 = Some p) by (destruct k; exact P).
  assert (M1 : model k w1 = model k w) by (destruct k; reflexivity).
  unfold deliver. rewrite selectionChanged_guard, G1, updated_eq.
  eexists. split; [reflexivity|].
  rewrite (view_after "active_select" k _ _ p handled_active)
    by (rewrite proxy_of_announced; exact P1).
  rewrite sync_indexes_announced.
  change (before_sync "active_select" k w1) with w1.
  unfold sync_indexes, selected_uuids. rewrite M1.
  replace (view k w1) with sel by (destruct k; reflexivity).
  rewrite !map_map.
  rewrite (map_ext_in _ (fun i => i)), map_id.
  - apply (selecting_fold_fresh sel []); assumption.
  - intros i I. apply R. apply list_elem_of_In. exact I.
Qed.

End HandlerMore.

(** ** More on the public mutators *)

Section Mutators.
Context `{Collaborators}.

(** X13. The three mutators fail without a trace: for a UUID that the
    store does not resolve each raises the lookup failure, and
    [create_event] on an entity that is no catalogue raises
    [AssertionError]; in all these cases the widget, its store included,
    is exactly as before and nothing is announced. *)
Theorem mutators_fail_cleanly (d : nat) (w : TSCatGUI) :
  (forall uuid s e,
     store w !! uuid = None ->
     update_event_range (S d) uuid s e w = Some (Raise (EntityNotFound uuid), w)) /\
  (forall uuid,
     store w !! uuid = None ->
     move_to_trash (S d) uuid w = Some (Raise (EntityNotFound uuid), w)) /\
  (forall s e a cu eu,
     store w !! cu = None ->
     create_event (S d) s e a cu eu w = Some (Raise (EntityNotFound cu), w)) /\
  (forall s e a cu eu c,
     store w !! cu = Some c -> entity_type c = Event ->
     create_event (S d) s e a cu eu w = Some (Raise AssertionError, w)).
Proof.
  repeat split.
  - intros uuid s e L. apply bind_raises, get_entity_missing, L.
  - intros uuid L. apply bind_raises, get_entity_missing, L.
  - intros s e a cu eu L. apply bind_raises, get_entity_missing, L.
  - intros s e a cu eu c L T. unfold create_event.
    erewrite bind_returns by (apply get_entity_found, L). rewrite T.
    reflexivity.
Qed.


(** X15. [update_event_range] and [move_to_trash] change the entity they
    address and no other. On an event, a start not after the event's stop
    with a stop not before that start sets both and keeps the rest of the
    event. A stop before the new start is refused with [ValueError] after
    the start is assigned: the event keeps the new start with its old
    stop, and nothing is announced. A start after the event's stop is
    refused with [ValueError] and the widget is as before.
    [move_to_trash] puts the entity in the trash and keeps the rest of
    it. *)
Theorem mutators_update_in_place
  (d : nat) (uuid : UUID) (x : Entity) (w : TSCatGUI) :
  store w !! uuid = Some x ->
  (forall s e,
     entity_type x = Event -> s <= stop x -> s <= e ->
     exists w',
       update_event_range (S d) uuid s e w = Some (Ok tt, w') /\
       store w' !! uuid =
         Some (mkEntity Event (is_removed x) s e (author x) (members x)) /\
       forall u, u <> uuid -> store w' !! u = store w !! u) /\
  (forall s e,
     entity_type x = Event -> s <= stop x -> e < s ->
     exists w',
       update_event_range (S d) uuid s e w = Some (Raise ValueError, w') /\
       store w' !! uuid =
         Some (mkEntity Event (is_removed x) s (stop x) (author x)
                 (members x)) /\
       (forall u, u <> uuid -> store w' !! u = store w !! u) /\
       trace w' = trace w) /\
  (forall s e,
     entity_type x = Event -> stop x < s ->
     update_event_range (S d) uuid s e w = Some (Raise ValueError, w)) /\
  (exists w',
     move_to_trash (S d) uuid w = Some (Ok tt, w') /\
     store w' !! uuid =
       Some (mkEntity (entity_type x) true (start x) (stop x) (author x)
               (members x)) /\
     forall u, u <> uuid -> store w' !! u = store w !! u).
Proof.
  intros L. split; [|split; [|split]].
  - intros s e T A B. rewrite (update_event_range_event _ _ _ _ _ _ L T).
    destruct (Z.ltb_spec (stop x) s); [lia|].
    destruct (Z.ltb_spec e s); [lia|].
    match goal with |- context [updated _ _ _ _ ?v] => set (w1 := v) end.
    destruct (updated_once d "changed" Event [uuid] w1)
      as (w' & E & _ & _ & S & _).
    exists w'. split; [exact E|]. rewrite S. subst w1.
    cbn [store with_store]. split.
    + apply lookup_insert_eq.
    + intros u N. apply lookup_insert_ne. congruence.
  - intros s e T A B. rewrite (update_event_range_event _ _ _ _ _ _ L T).
    destruct (Z.ltb_spec (stop x) s); [lia|].
    destruct (Z.ltb_spec e s); [|lia].
    eexists. split; [reflexivity|]. cbn [store with_store trace]. split; [|split].
    + apply lookup_insert_eq.
    + intros u N. apply lookup_insert_ne. congruence.
    + reflexivity.
  - intros s e T A. rewrite (update_event_range_event _ _ _ _ _ _ L T).
    destruct (Z.ltb_spec (stop x) s); [reflexivity|lia].
  - unfold move_to_trash.
    erewrite bind_returns by (apply get_entity_found, L). rewrite !bind_modify.
    match goal with |- context [updated _ _ _ _ ?v] => set (w1 := v) end.
    destruct (updated_once d "moved" (entity_type x) [uuid] w1)
      as (w' & E & _ & _ & S & _).
    exists w'. split; [exact E|]. rewrite S. subst w1.
    cbn [store with_store]. split.
    + rewrite lookup_alter_eq, L. reflexivity.
    + intros u N. rewrite lookup_alter_ne by congruence. reflexivity.
Qed.

Lemma move_to_trash_eq d uuid x w :
  store w !! uuid = Some x ->
  exists w',
    move_to_trash (S d) uuid w = Some (Ok tt, w') /\
    store w' = alter remove uuid (store w) /\
    notifications w' =
      notifications w ++ [Notify "moved" (entity_type x) [uuid]].
Proof.
  intros L. unfold move_to_trash.
  erewrite bind_returns by (apply get_entity_found, L). rewrite !bind_modify.
  match goal with |- context [updated _ _ _ _ ?v] => set (w1 := v) end.
  destruct (updated_once d "moved" (entity_type x) [uuid] w1)
    as (w' & E & N & _ & S & _).
  exists w'. split; [exact E|]. rewrite S, N. split; reflexivity.
Qed.

(** X16. Selecting an event that is not in the trash enables "move to
    trash" and not "restore"; after [move_to_trash] of that event, the
    same selection enables "restore" and not "move to trash". "Delete" and
    "export" are enabled both times. *)
Theorem trash_flips_enablement
  (d : nat) (uuid : UUID) (x : Entity) (w : TSCatGUI) :
  store w !! uuid = Some x ->
  is_removed x = false ->
  exists before trashed after,
    updated (S d) "active_select" Event [uuid] w = Some (Ok tt, before) /\
    enablement before = [true; false; true; true; true] /\
    move_to_trash (S d) uuid w = Some (Ok tt, trashed) /\
    updated (S d) "active_select" Event [uuid] trashed = Some (Ok tt, after) /\
    enablement after = [false; true; true; true; true].
Proof.
  intros L R.
  destruct (active_select_outcome d Event [uuid] w (events_sort_model w) eq_refl)
    as (before & E1 & F1 & _).
  destruct (move_to_trash_eq d uuid x w L) as (trashed & E2 & S2 & _).
  destruct (active_select_outcome d Event [uuid] trashed
              (events_sort_model trashed) eq_refl) as (after & E3 & F3 & _).
  exists before, trashed, after. repeat split; try assumption.
  - rewrite F1. unfold flags_for, kept_in, removed_in. cbn. rewrite L, R.
    reflexivity.
  - rewrite F3, S2. unfold flags_for, kept_in, removed_in. cbn.
    rewrite lookup_alter_eq, L. reflexivity.
Qed.

(** X17. A second [move_to_trash] of the same entity leaves the store as
    the first one left it, and announces the move once more. *)
Theorem move_to_trash_twice
  (d : nat) (uuid : UUID) (x : Entity) (w : TSCatGUI) :
  store w !! uuid = Some x ->
  exists w1 w2,
    move_to_trash (S d) uuid w = Some (Ok tt, w1) /\
    move_to_trash (S d) uuid w1 = Some (Ok tt, w2) /\
    store w2 = store w1 /\
    notifications w2 =
      notifications w ++
      [Notify "moved" (entity_type x) [uuid];
       Notify "moved" (entity_type x) [uuid]].
Proof.
  intros L.
  destruct (move_to_trash_eq d uuid x w L) as (w1 & E1 & S1 & N1).
  assert (L1 : store w1 !! uuid = Some (remove x))
    by (rewrite S1, lookup_alter_eq, L; reflexivity).
  destruct (move_to_trash_eq d uuid (remove x) w1 L1) as (w2 & E2 & S2 & N2).
  exists w1, w2. repeat split; try assumption.
  - rewrite S2. apply map_eq. intros u.
    destruct (decide (u = uuid)) as [->|N].
    + rewrite lookup_alter_eq, L1. reflexivity.
    + rewrite lookup_alter_ne by congruence. reflexivity.
  - rewrite N2, N1, <- app_assoc. reflexivity.
Qed.

End Mutators.

(** ** More on the history menus *)

Section MenusMore.
Context `{Collaborators}.

Lemma add_history_actions_fails idxs inc : forall menu w,
  Exists (fun j => command (undo_stack w) j = None) idxs ->
  add_history_actions idxs inc menu w = Some (Raise (AttributeError "text"), w).
Proof.
  induction idxs as [|j idxs IH]; intros menu w X; cbn [add_history_actions].
  - inversion X.
  - rewrite bind_gets. destruct (command (undo_stack w) j) eqn:C; [|reflexivity].
    apply IH. inversion X as [? ? A|? ? A]; subst; [congruence | exact A].
Qed.

(** X18. When one index of the range has no command in the stack,
    building a menu raises [AttributeError] and the tool button keeps the
    menu it had: nothing of a half-built menu is installed. *)
Theorem menu_is_built_whole_or_not_at_all
  (index_range : list Z) (toolbutton : ToolButton) (index_inc : Z)
  (more_items : bool) (more_items_text : string) (w : TSCatGUI) :
  Exists (fun j => command (undo_stack w) j = None) index_range ->
  create_undo_redo_action_menu_on_toolbutton index_range toolbutton index_inc
    more_items more_items_text w
  = Some (Raise (AttributeError "text"), w).
Proof.
  intros X. apply bind_raises, add_history_actions_fails, X.
Qed.

(** X19. Rebuilding the history menus changes the two menus and nothing
    else, does not depend on the menus that were installed before, and
    done again at the same index changes nothing. *)
Theorem history_menus_rebuilt_from_scratch (w : TSCatGUI) (i : Z) :
  0 <= i <= count (undo_stack w) ->
  exists w',
    undo_redo_index_changed i w = Some (Ok tt, w') /\
    (exists undo_menu redo_menu,
       w' = with_redo_toolbar_button redo_menu
              (with_undo_toolbar_button undo_menu w)) /\
    (forall m1 m2,
       undo_redo_index_changed i
         (with_redo_toolbar_button m2 (with_undo_toolbar_button m1 w))
       = Some (Ok tt, w')) /\
    undo_redo_index_changed i w' = Some (Ok tt, w').
Proof.
  intros R. eexists. split; [apply undo_redo_index_changed_eq, R|].
  split; [eauto|]. split.
  - intros m1 m2. rewrite undo_redo_index_changed_eq by exact R. reflexivity.
  - rewrite undo_redo_index_changed_eq by exact R. reflexivity.
Qed.

End MenusMore.

(** ** The refresh action *)

Section RefreshMore.
Context `{Collaborators}.

Lemma updated_extends d action k uuids w :
  exists w' delta,
    updated (S d) action k uuids w = Some (Ok tt, w') /\
    trace w' = trace w ++ delta /\
    notifications w' = notifications w ++ [Notify action k uuids] /\
    emissions w' = emissions w ++ emitted action k uuids /\
    store w' = store w /\
    undo_stack w' = undo_stack w /\
    enablement w' =
      (if String.eqb action "active_select" then
         match proxy_of k w with
         | Some _ => flags_for (store w) uuids
         | None => enablement w
         end
       else enablement w).
Proof.
  eexists _, _. split; [apply updated_eq|]. split.
  { rewrite handler_trace. unfold announced at 1. cbn [trace with_trace].
    rewrite <- app_assoc. reflexivity. }
  destruct (handler_frame action k uuids (announced action k uuids w))
    as (N & E & S & U & _).
  rewrite N, E, S, U, notifications_announced, emissions_announced.
  repeat split. rewrite flags_after, proxy_of_announced.
  change (enablement (announced action k uuids w)) with (enablement w).
  change (store (announced action k uuids w)) with (store w).
  destruct (String.eqb_spec action "active_select") as [->|N1].
  - reflexivity.
  - destruct (py_in action handled_verbs); [|reflexivity].
    destruct (proxy_of k w); reflexivity.
Qed.

(** X20. The refresh action resets the catalogue model and then the
    events model before anything else; it then announces the selection it
    was given: for a selection of events a [passive_select] of the
    selected catalogues followed by the [active_select] of the events, for
    a selection of catalogues the [active_select] alone. The host gets one
    selected-signal, the store and the undo stack are not touched, and
    for a selection of events the flags are set from the store. *)
Theorem refresh_outcome (d : nat) (cs : SelectState) (w : TSCatGUI) :
  exists w',
    refresh_current_selection (S d) cs w = Some (Ok tt, w') /\
    (exists rest,
       trace w' = trace w ++ ModelReset Catalogue :: ModelReset Event :: rest) /\
    notifications w' =
      notifications w ++
      (match sel_type cs with
       | Event => [Notify "passive_select" Catalogue (selected_catalogues cs)]
       | Catalogue => []
       end) ++
      [Notify "active_select" (sel_type cs) (selected cs)] /\
    emissions w' =
      emissions w ++
      [Emit (match sel_type cs with
             | Catalogue => catalogues_selected
             | Event => events_selected
             end) (selected cs)] /\
    store w' = store w /\
    undo_stack w' = undo_stack w /\
    (sel_type cs = Event -> enablement w' = flags_for (store w) (selected cs)).
Proof.
  unfold refresh_current_selection.
  erewrite bind_returns by apply model_reset_eq.
  erewrite bind_returns by apply model_reset_eq.
  set (w1 := reloaded Event (reloaded Catalogue w)).
  assert (T1 : trace w1 = trace w ++ [ModelReset Catalogue; ModelReset Event])
    by (cbn; rewrite <- app_assoc; reflexivity).
  assert (N1 : notifications w1 = notifications w).
  { unfold notifications. rewrite T1, List.filter_app. cbn. apply app_nil_r. }
  assert (E1 : emissions w1 = emissions w).
  { unfold emissions. rewrite T1, List.filter_app. cbn. apply app_nil_r. }
  destruct (sel_type cs) eqn:Ty.
  - erewrite bind_returns by reflexivity.
    destruct (updated_extends d "active_select" Catalogue (selected cs) w1)
      as (w' & delta & E & T & N & Em & S & U & _).
    exists w'. split; [exact E|]. repeat split.
    + exists delta. rewrite T, T1, <- app_assoc. reflexivity.
    + rewrite N, N1. reflexivity.
    + rewrite Em, E1. reflexivity.
    + rewrite S. reflexivity.
    + rewrite U. reflexivity.
    + discriminate.
  - destruct (updated_extends d "passive_select" Catalogue
                (selected_catalogues cs) w1)
      as (w2 & delta2 & E2 & T2 & N2 & Em2 & S2 & U2 & F2).
    erewrite bind_returns by exact E2.
    destruct (updated_extends d "active_select" Event (selected cs) w2)
      as (w' & delta & E & T & N & Em & S & U & F).
    exists w'. split; [exact E|]. repeat split.
    + exists (delta2 ++ delta). rewrite T, T2, T1, <- !app_assoc. reflexivity.
    + rewrite N, N2, N1, <- app_assoc. reflexivity.
    + rewrite Em, Em2, E1. cbn. rewrite app_nil_r. reflexivity.
    + rewrite S, S2. reflexivity.
    + rewrite U, U2. reflexivity.
    + intros _. rewrite F. cbn. rewrite S2. reflexivity.
Qed.

End RefreshMore.

(** ** What the host is told *)

Section Host.
Context `{Collaborators}.

(** X21. Of the three mutators only [update_event_range] reaches the
    host, and only when it returns: it then emits [events_changed] with
    the UUID it was given, as it does for every event with a start not
    after the event's stop and a stop not before that start; when it
    raises (a stale UUID, a range tscat refuses) it emits nothing. Neither
    [move_to_trash] nor [create_event] emits any of the four signals,
    whether they return or raise. *)
Theorem mutators_tell_the_host (d : nat) (w : TSCatGUI) :
  (forall uuid s e,
     exists r w',
       update_event_range (S d) uuid s e w = Some (r, w') /\
       emissions w' =
         emissions w ++
         match r with
         | Ok _ => [Emit events_changed [uuid]]
         | Raise _ => []
         end /\
       forall ev,
         store w !! uuid = Some ev -> entity_type ev = Event ->
         s <= stop ev -> s <= e -> r = Ok tt) /\
  (forall uuid,
     exists r w',
       move_to_trash (S d) uuid w = Some (r, w') /\
       emissions w' = emissions w) /\
  (forall s e a cu eu,
     exists r w',
       create_event (S d) s e a cu eu w = Some (r, w') /\
       emissions w' = emissions w).
Proof.
  split; [|split].
  - intros uuid s e. destruct (store w !! uuid) as [ev|] eqn:L.
    + rewrite (update_event_range_eq _ _ _ _ _ _ L).
      destruct (set_start s ev) as [ev1|x] eqn:S1.
      * destruct (set_stop e ev1) as [ev2|x] eqn:S2.
        -- match goal with
           | |- context [updated _ _ _ _ ?v] => set (w1 := v)
           end.
           destruct (updated_once d "changed" Event [uuid] w1)
             as (w' & E & _ & Em & _).
           exists (Ok tt), w'. split; [exact E|]. split; [exact Em|].
           reflexivity.
        -- eexists (Raise x), _. split; [reflexivity|].
           split; [symmetry; apply app_nil_r|].
           intros ev' [= <-] T A B. exfalso.
           unfold set_start in S1. rewrite T in S1.
           destruct (Z.ltb_spec (stop ev) s); [lia|]. injection S1 as <-.
           unfold set_stop in S2. cbn in S2.
           destruct (Z.ltb_spec e s); [lia|discriminate].
      * exists (Raise x), w. split; [reflexivity|].
        split; [symmetry; apply app_nil_r|].
        intros ev' [= <-] T A B. exfalso.
        unfold set_start in S1. rewrite T in S1.
        destruct (Z.ltb_spec (stop ev) s); [lia|discriminate].
    + exists (Raise (EntityNotFound uuid)), w. split.
      * apply bind_raises, get_entity_missing, L.
      * split; [symmetry; apply app_nil_r|]. intros ev' [=].
  - intros uuid. unfold move_to_trash.
    destruct (store w !! uuid) as [x|] eqn:L.
    + erewrite bind_returns by (apply get_entity_found, L).
      rewrite !bind_modify.
      match goal with |- context [updated _ _ _ _ ?v] => set (w1 := v) end.
      destruct (updated_once d "moved" (entity_type x) [uuid] w1)
        as (w' & E & _ & Em & _).
      exists (Ok tt), w'. split; [exact E|]. rewrite Em. cbn. apply app_nil_r.
    + exists (Raise (EntityNotFound uuid)), w. split; [|reflexivity].
      apply bind_raises, get_entity_missing, L.
  - intros s e a cu eu. destruct (store w !! cu) as [c|] eqn:L.
    + destruct (entity_type c) eqn:T.
      * rewrite (create_event_eq _ _ _ _ _ _ _ _ L T).
        destruct (e <? s); [exists (Raise ValueError), w; split; reflexivity|].
        match goal with |- context [bind _ _ ?v] => set (w1 := v) end.
        destruct (updated_once d "inserted" Event [eu] w1)
          as (w' & E & _ & Em & _).
        erewrite bind_returns by exact E. eexists _, w'.
        split; [reflexivity|]. rewrite Em. cbn. apply app_nil_r.
      * exists (Raise AssertionError), w. split; [|reflexivity].
        unfold create_event.
        erewrite bind_returns by (apply get_entity_found, L).
        rewrite T. reflexivity.
    + exists (Raise (EntityNotFound cu)), w. split; [|reflexivity].
      apply bind_raises, get_entity_missing, L.
Qed.

(** X22. A selection that the user makes while the guard is unset is
    reported to the host once: one [events_selected] or
    [catalogues_selected], by the view, with the UUIDs of the selected
    indexes in the order of the selection. *)
Theorem user_selection_reported_once
  (d : nat) (k : Kind) (sel : list QModelIndex) (w : TSCatGUI) :
  programmatic_select w = false ->
  exists w',
    user_selects (S d) k sel w = Some (Ok tt, w') /\
    emissions w' =
      emissions w ++
      [Emit (match k with
             | Catalogue => catalogues_selected
             | Event => events_selected
             end) (map (UUIDRole k (model k w)) sel)].
Proof.
  intros G. unfold user_selects. rewrite bind_modify.
  set (w1 := with_view k sel w).
  assert (G1 : programmatic_select w1 = false) by (destruct k; exact G).
  destruct (updated_once d "active_select" k (selected_uuids k w1) w1)
    as (w' & E & _ & Em & _).
  exists w'. unfold deliver. rewrite selectionChanged_guard, G1, E.
  split; [reflexivity|]. rewrite Em. destruct k; reflexivity.
Qed.

End Host.

(** * The further properties at concrete inputs *)

(** X3 on three names. *)
Lemma trash_sorts_last_witness :
  StronglySorted (fun a b => lessThan b a = false) ["alpha"; "Trash"; "Trash"] /\
  (1 < 2)%nat /\
  ["alpha"; "Trash"; "Trash"] !! 1%nat = Some "Trash" /\
  ["alpha"; "Trash"; "Trash"] !! 2%nat = Some "Trash" /\
  "Trash" = "Trash".
Proof.
  assert (S : StronglySorted (fun a b => lessThan b a = false)
                ["alpha"; "Trash"; "Trash"])
    by (repeat (constructor; try reflexivity)).
  split; [exact S|]. split; [lia|]. split; [reflexivity|].
  split; [reflexivity|].
  exact (trash_sorts_last ["alpha"; "Trash"; "Trash"] 1 2 "Trash" S
           ltac:(lia) eq_refl eq_refl).
Defined.

(** X4 with [posixpath.splitext] on a name with another extension. *)
Lemma export_filename_json_witness :
  (fst (DemoEnv.posix_splitext "/home/u/cat.txt") ++
   snd (DemoEnv.posix_splitext "/home/u/cat.txt"))%string = "/home/u/cat.txt" /\
  (exists stem,
     export_filename DemoEnv.posix_splitext "/home/u/cat.txt"
     = (stem ++ ".json")%string) /\
  (export_filename DemoEnv.posix_splitext "/home/u/cat.txt" = "/home/u/cat.txt"
   <-> snd (DemoEnv.posix_splitext "/home/u/cat.txt") = ".json").
Proof.
  split; [reflexivity|].
  apply (export_filename_json DemoEnv.posix_splitext "/home/u/cat.txt").
  reflexivity.
Defined.

(** X6 on an export with a stale UUID over an older export. *)
Lemma export_to_file_outcome_witness :
  "/out/cat.txt" <> EmptyString /\
  open_for_writing (export_filename splitext "/out/cat.txt") = None /\
  demo_fs !! "/out/cat.json" = Some "old" /\
  exists fs' msg,
    export_to_file "/out/cat.txt" ["A"; "zz"] demo_fs Demo.w0
      = Some (Ok (fs', Some msg), Demo.w0) /\
    fs' !! "/out/cat.json" = Some EmptyString /\
    exists text, msg = critical "Catalogue export" text.
Proof.
  assert (N : "/out/cat.txt" <> EmptyString) by discriminate.
  assert (O : open_for_writing (export_filename splitext "/out/cat.txt") = None)
    by reflexivity.
  split; [exact N|]. split; [exact O|]. split; [reflexivity|].
  destruct (export_to_file_outcome "/out/cat.txt" ["A"; "zz"] demo_fs Demo.w0
              N O) as (fs' & msg & E & _ & F).
  exists fs', msg. split; [exact E|].
  apply F. left. exists "zz". reflexivity.
Defined.

(** X7 on a file whose content is rejected. *)
Lemma import_from_file_contained_witness :
  "/out/cat.json" <> EmptyString /\
  (forall d, demo_push "/out/cat.json" d Demo.w0 <> None) /\
  exists msg w',
    import_from_file demo_push "/out/cat.json" demo_fs Demo.w0
      = Some (Ok msg, w') /\
    w' = Demo.w0 /\
    exists text, msg = Some (critical "Catalogue import" text).
Proof.
  assert (N : "/out/cat.json" <> EmptyString) by discriminate.
  assert (T : forall d, demo_push "/out/cat.json" d Demo.w0 <> None)
    by (intros d; unfold demo_push; rewrite updated_eq; discriminate).
  split; [exact N|]. split; [exact T|].
  destruct (import_from_file_contained demo_push "/out/cat.json" demo_fs
              Demo.w0 N T) as (msg & w' & E & F & _).
  exists msg, w'. split; [exact E|]. apply F.
  intros data d [= <-]. discriminate.
Defined.

(** X8 on a user selection, a trashing and a refresh. *)
Lemma inputs_keep_widget_coherent_witness :
  idle_coherent Demo.w0 /\
  exists w',
    run 1 [UserSelects Event [Row 0]; MoveToTrash "e1";
           Refresh (mkSelectState Event ["e1"] ["A"])] Demo.w0 = Some w' /\
    programmatic_select w' = false /\
    delete_action w' = export_action w' /\
    delete_action w' = move_to_trash_action w' || restore_from_trash_action w'.
Proof.
  assert (I : idle_coherent Demo.w0) by (repeat split).
  split; [exact I|]. apply inputs_keep_widget_coherent. exact I.
Defined.

(** X10 on a verb the handler does not know. *)
Lemma unknown_verb_only_announced_witness :
  py_in "renamed" handled_verbs = false /\
  updated 1 "renamed" Event ["e1"] Demo.w0 =
  Some (Ok tt, with_trace [Notify "renamed" Event ["e1"]] Demo.w0).
Proof.
  split; [reflexivity|].
  exact (unknown_verb_only_announced 0 "renamed" Event ["e1"] Demo.w0 eq_refl).
Defined.

(** X11 on a list with a repeated and a stale UUID. *)
Lemma selection_is_the_valid_indexes_witness :
  py_in "changed" handled_verbs = true /\
  proxy_of Event Demo.w0 = Some tt /\
  exists w',
    updated 1 "changed" Event ["e2"; "zz"; "e2"] Demo.w0 = Some (Ok tt, w') /\
    NoDup (view Event w') /\
    forall i, i ∈ view Event w' <->
              i ∈ sync_indexes tt Event
                    (before_sync "changed" Event Demo.w0) ["e2"; "zz"; "e2"] /\
              isValid i = true.
Proof.
  split; [reflexivity|]. split; [reflexivity|].
  apply (selection_is_the_valid_indexes 0 "changed" Event ["e2"; "zz"; "e2"]
           Demo.w0 tt); reflexivity.
Defined.

(** X12 on a selection of both events, the second one first. *)
Lemma user_selection_survives_echo_witness :
  programmatic_select Demo.w0 = false /\
  proxy_of Event Demo.w0 = Some tt /\
  NoDup [Row 1; Row 0] /\
  Forall (fun i => isValid i = true) [Row 1; Row 0] /\
  exists w',
    user_selects 1 Event [Row 1; Row 0] Demo.w0 = Some (Ok tt, w') /\
    view Event w' = [Row 1; Row 0].
Proof.
  assert (N : NoDup [Row 1; Row 0]).
  { apply NoDup_cons. split; [|apply NoDup_singleton].
    intros [=]%list_elem_of_singleton. }
  assert (V : Forall (fun i => isValid i = true) [Row 1; Row 0])
    by (repeat constructor).
  split; [reflexivity|]. split; [reflexivity|]. split; [exact N|].
  split; [exact V|].
  apply (user_selection_survives_echo 0 Event [Row 1; Row 0] Demo.w0 tt
           eq_refl eq_refl N V).
  intros i [->|[->|[]%elem_of_nil]%elem_of_cons]%elem_of_cons; reflexivity.
Defined.


(** X15 on event [e1], which runs from 10 to 20: an accepted range, and
    a stop before the new start. *)
Lemma mutators_update_in_place_witness :
  store Demo.w0 !! "e1" = Some Demo.ev1 /\
  (exists w',
     update_event_range 1 "e1" 11 19 Demo.w0 = Some (Ok tt, w') /\
     store w' !! "e1" = Some (mkEntity Event false 11 19 "ann" []) /\
     store w' !! "e2" = Some Demo.ev2) /\
  (exists w',
     update_event_range 1 "e1" 15 12 Demo.w0 = Some (Raise ValueError, w') /\
     store w' !! "e1" = Some (mkEntity Event false 15 20 "ann" []) /\
     trace w' = []) /\
  update_event_range 1 "e1" 30 40 Demo.w0 = Some (Raise ValueError, Demo.w0).
Proof.
  split; [reflexivity|].
  destruct (mutators_update_in_place 0 "e1" Demo.ev1 Demo.w0 eq_refl)
    as (Acc & Half & Ref & _).
  split; [|split].
  - destruct (Acc 11 19) as (w' & E & A & B); [reflexivity|cbn; lia|lia|].
    exists w'. split; [exact E|]. split; [exact A|].
    rewrite B by discriminate. reflexivity.
  - destruct (Half 15 12) as (w' & E & A & _ & T); [reflexivity|cbn; lia|lia|].
    exists w'. split; [exact E|]. split; [exact A|exact T].
  - apply Ref; [reflexivity|cbn; lia].
Defined.

(** X16 on event [e1]. *)
Lemma trash_flips_enablement_witness :
  store Demo.w0 !! "e1" = Some Demo.ev1 /\
  is_removed Demo.ev1 = false /\
  exists before trashed after,
    updated 1 "active_select" Event ["e1"] Demo.w0 = Some (Ok tt, before) /\
    enablement before = [true; false; true; true; true] /\
    move_to_trash 1 "e1" Demo.w0 = Some (Ok tt, trashed) /\
    updated 1 "active_select" Event ["e1"] trashed = Some (Ok tt, after) /\
    enablement after = [false; true; true; true; true].
Proof.
  split; [reflexivity|]. split; [reflexivity|].
  exact (trash_flips_enablement 0 "e1" Demo.ev1 Demo.w0 eq_refl eq_refl).
Defined.

(** X17 on event [e1]. *)
Lemma move_to_trash_twice_witness :
  store Demo.w0 !! "e1" = Some Demo.ev1 /\
  exists w1 w2,
    move_to_trash 1 "e1" Demo.w0 = Some (Ok tt, w1) /\
    move_to_trash 1 "e1" w1 = Some (Ok tt, w2) /\
    store w2 = store w1 /\
    notifications w2 =
      [Notify "moved" Event ["e1"]; Notify "moved" Event ["e1"]].
Proof.
  split; [reflexivity|].
  exact (move_to_trash_twice 0 "e1" Demo.ev1 Demo.w0 eq_refl).
Defined.

(** X18 on a range that leaves the stack of twelve commands. *)
Lemma menu_is_built_whole_or_not_at_all_witness :
  Exists (fun j => command (undo_stack w_history) j = None) [11; 12] /\
  create_undo_redo_action_menu_on_toolbutton [11; 12] redo_button 1 false
    "0 more redo actions" w_history
  = Some (Raise (AttributeError "text"), w_history).
Proof.
  assert (X : Exists (fun j => command (undo_stack w_history) j = None) [11; 12])
    by (apply Exists_cons_tl, Exists_cons_hd; reflexivity).
  split; [exact X|].
  exact (menu_is_built_whole_or_not_at_all [11; 12] redo_button 1 false
           "0 more redo actions" w_history X).
Defined.

(** X19 on the stack of twelve commands with the index at eleven. *)
Lemma history_menus_rebuilt_from_scratch_witness :
  0 <= 11 <= count (undo_stack w_history) /\
  exists w',
    undo_redo_index_changed 11 w_history = Some (Ok tt, w') /\
    undo_redo_index_changed 11 w' = Some (Ok tt, w').
Proof.
  assert (R : 0 <= 11 <= count (undo_stack w_history))
    by (change (0 <= 11 <= 12); lia).
  split; [exact R|].
  destruct (history_menus_rebuilt_from_scratch w_history 11 R)
    as (w' & E & _ & _ & I).
  exists w'. split; assumption.
Defined.

(** X22 on a selection of the second event. *)
Lemma user_selection_reported_once_witness :
  programmatic_select Demo.w0 = false /\
  exists w',
    user_selects 1 Event [Row 1] Demo.w0 = Some (Ok tt, w') /\
    emissions w' = [Emit events_selected ["e2"]].
Proof.
  split; [reflexivity|].
  exact (user_selection_reported_once 0 Event [Row 1] Demo.w0 eq_refl).
Defined.

(** X23 on a selection of both events, one of them in the trash. *)
Lemma enablement_rule_witness :
  proxy_of Event Demo.w0 = Some tt /\
  first_stale (store Demo.w0) ["e1"; "e2"] = None /\
  exists w',
    updated 1 "active_select" Event ["e1"; "e2"] Demo.w0 = Some (Ok tt, w') /\
    restore_from_trash_action w' = true /\
    move_to_trash_action w' = true /\
    delete_action w' = true /\
    export_action w' = true.
Proof.
  split; [reflexivity|]. split; [reflexivity|].
  exact (enablement_rule 0 Event ["e1"; "e2"] Demo.w0 tt eq_refl eq_refl).
Defined.

(** X24 on a [changed] of the second event. *)
Lemma sync_by_verb_witness :
  py_in "changed" handled_verbs = true /\
  proxy_of Event Demo.w0 = Some tt /\
  exists w',
    updated 1 "changed" Event ["e2"] Demo.w0 = Some (Ok tt, w') /\
    trace w' =
      [Notify "changed" Event ["e2"]; Emit events_changed ["e2"];
       ModelReset Event; ClearSelection Event; Select Event (Row 1)] /\
    view Event w' = [Row 1].
Proof.
  split; [reflexivity|]. split; [reflexivity|].
  exact (sync_by_verb 0 "changed" Event ["e2"] Demo.w0 tt eq_refl eq_refl).
Defined.

(** X25 on the widget as constructed. *)
Lemma catalogue_branch_aborts_witness :
  py_in "moved" handled_verbs = true /\
  catalogue_sort_filter_model (init Demo.store0) = None /\
  exists w',
    updated 1 "moved" Catalogue ["T"] (init Demo.store0) = Some (Ok tt, w') /\
    enablement w' = enablement (init Demo.store0) /\
    trace w' =
      [Notify "moved" Catalogue ["T"]; ModelReset Catalogue;
       SlotError (AttributeError "catalogue_sort_filter_model")].
Proof.
  split; [reflexivity|]. split; [reflexivity|].
  exact (catalogue_branch_aborts 0 "moved" ["T"] (init Demo.store0)
           eq_refl eq_refl).
Defined.
